(** * ExcSerial: a shallow embedding of [main.cpp] and its properties

    [main.cpp] validates three command-line arguments, opens and
    configures a COM port and then sends the frame [#n,n,n,n;] at a fixed
    period, flipping the sign of [n] after every successful write, until
    a console control event sets [gStopRequested].

    The embedding keeps the shape of the source:
    - [int] and [unsigned int] values are [Z] with the wrap-around of the
      32-bit types written out;
    - the operating system (the results of the Win32 calls, the readings
      of [steady_clock], the delivery of console control events) is a
      [World] of oracles;
    - everything the program does to the outside is appended to a trace
      of [Event]s;
    - the send loop is a step function on a [State] with an explicit
      program point, iterated by [run]. *)

From Stdlib Require Import ZArith List String Ascii Bool Lia.
From Stdlib Require Import DecimalString DecimalPos DecimalZ.
Import ListNotations.
Open Scope Z_scope.
Open Scope string_scope.

(** ** Machine integers *)

Module Cxx.

Definition INT_MIN : Z := -2147483648.
Definition INT_MAX : Z := 2147483647.
Definition UINT_MODULUS : Z := 4294967296.

Definition EXIT_SUCCESS : Z := 0.
Definition EXIT_FAILURE : Z := 1.

Definition in_int (z : Z) : Prop := INT_MIN <= z <= INT_MAX.

(** Result of an [int] operation whose mathematical value is [z], on a
    two's complement machine. *)
Definition int_wrap (z : Z) : Z :=
  (z + 2147483648) mod UINT_MODULUS - 2147483648.

(** [n *= -1] on an [int]. *)
Definition int_flip (n : Z) : Z := int_wrap (n * -1).

(** [c++] on an [unsigned int]. *)
Definition uint_incr (c : Z) : Z := (c + 1) mod UINT_MODULUS.

(** [a / b] on [int]s: the quotient truncated towards zero; with a
    zero divisor the division has no result. *)
Definition int_div (a b : Z) : option Z :=
  if (b =? 0)%Z then None else Some (int_wrap (Z.quot a b)).

End Cxx.
Import Cxx.

(** ** Text: [operator>>(int&)] and [std::format] *)

Definition LF : string := String (ascii_of_nat 10) "".
Definition CR : string := String (ascii_of_nat 13) "".

(** [std::isspace] in the classic locale. *)
Definition is_space (c : ascii) : bool :=
  let k := nat_of_ascii c in
  (Nat.eqb k 32 || (Nat.leb 9 k && Nat.leb k 13))%bool.

Definition digit_of (c : ascii) : option Z :=
  let k := nat_of_ascii c in
  if (Nat.leb 48 k && Nat.leb k 57)%bool then Some (Z.of_nat (k - 48)) else None.

Fixpoint skip_ws (s : string) : string :=
  match s with
  | String c r => if is_space c then skip_ws r else s
  | EmptyString => s
  end.

(** The digits at the front of [s], accumulated in base ten; [acc] is
    [None] as long as no digit has been read. *)
Fixpoint read_digits (s : string) (acc : option Z) : option Z :=
  match s with
  | String c r =>
      match digit_of c with
      | Some d =>
          read_digits r (Some (10 * match acc with Some a => a | None => 0 end + d))
      | None => acc
      end
  | EmptyString => acc
  end.

(** [std::stringstream ss(arg); ss >> n; if (!ss) ...]: leading white
    space is skipped, an optional sign and the longest run of digits are
    read, what follows is left in the stream.  The stream fails when no
    digit was read or when the value does not fit an [int]. *)
Definition extract_int (arg : string) : option Z :=
  let s := skip_ws arg in
  let '(negative, rest) :=
    match s with
    | String "-"%char r => (true, r)
    | String "+"%char r => (false, r)
    | _ => (false, s)
    end in
  match read_digits rest None with
  | None => None
  | Some m =>
      let v := if negative then - m else m in
      if ((INT_MIN <=? v)%Z && (v <=? INT_MAX)%Z)%bool then Some v else None
  end.

(** [std::format("{}", v)] for an integer. *)
Definition to_chars (v : Z) : string := NilZero.string_of_int (Z.to_int v).

(** [std::format("#{},{},{},{};", n, n, n, n)]. *)
Definition format_frame (n : Z) : string :=
  "#" ++ to_chars n ++ "," ++ to_chars n ++ "," ++ to_chars n ++ ","
      ++ to_chars n ++ ";".

(** [std::string(count, ' ')]. *)
Fixpoint spaces (count : nat) : string :=
  match count with
  | O => ""
  | S k => String " "%char (spaces k)
  end.

(** ** The operating system *)

(** The Win32 calls of [main] that can fail; [WriteFile k] is the call
    number [k] (from 0) made by the send loop. *)
Inductive Call : Type :=
| CreateFile
| SetConsoleCtrlHandler
| GetCommState
| SetCommTimeouts
| WriteFile (k : nat).

(** [os_error c] is [None] when the call [c] succeeds and
    [Some (error_string(GetLastError()))] when it fails.
    [steady_clock i] is the reading of [std::chrono::steady_clock::now()]
    at the logical instant [i], in nanoseconds.
    [ctrl_event i] is the control type the console delivers to
    [CtrlHandler] at instant [i], if any. *)
Record World : Type := {
  os_error : Call -> option string;
  steady_clock : nat -> Z;
  ctrl_event : nat -> option Z
}.

Inductive Stream : Type := cout | cerr.

(** What the program does to the outside, in the order it does it. *)
Inductive Event : Type :=
| Print (to : Stream) (text : string)
| Open (port : string)
| Sleep0
| Write (at_time : Z) (payload : Z) (msg : string) (ok : bool)
| Close.

(** Values of [wincon.h]. *)
Definition CTRL_C_EVENT : Z := 0.
Definition CTRL_BREAK_EVENT : Z := 1.
Definition CTRL_CLOSE_EVENT : Z := 2.
Definition CTRL_LOGOFF_EVENT : Z := 5.
Definition CTRL_SHUTDOWN_EVENT : Z := 6.

(** [CtrlHandler(ctrlType)] run with [gStopRequested = stop]: the flag
    afterwards and the value returned. *)
Definition CtrlHandler (ctrlType : Z) (stop : bool) : bool * bool :=
  if ((ctrlType =? CTRL_C_EVENT)%Z || (ctrlType =? CTRL_BREAK_EVENT)%Z
      || (ctrlType =? CTRL_CLOSE_EVENT)%Z || (ctrlType =? CTRL_LOGOFF_EVENT)%Z
      || (ctrlType =? CTRL_SHUTDOWN_EVENT)%Z)%bool
  then (true, true)
  else (stop, false).

(** ** The send loop *)

(** Program points of the loop of [main]. *)
Inductive Phase : Type :=
| LoopHead              (* while (!gStopRequested) *)
| BusyWait              (* while (now() - last_send_time < sleep_time_ms) *)
| TakeNow               (* const auto now = now(); last_send_time = now; *)
| Send (now : Z)        (* format, WriteFile, flip and count, status print *)
| Exited (code : Z).    (* main has returned *)

Record Config : Type := {
  comport : string;
  f : Z;
  sleep_time_ms : Z
}.

Record State : Type := {
  phase : Phase;
  gStopRequested : bool;
  n : Z;
  messages_sent : Z;
  last_send_time : Z;
  last_print_time : Z;
  instant : nat;
  attempts : nat;
  trace : list Event
}.

Definition ns_per_ms : Z := 1000000.
Definition status_print_time : Z := 2000000000.

(** The flag as the program finds it at the instant [instant s]: a
    control event of that instant has run [CtrlHandler] first. *)
Definition deliver (w : World) (s : State) : bool :=
  match ctrl_event w (instant s) with
  | Some ctrlType => fst (CtrlHandler ctrlType (gStopRequested s))
  | None => gStopRequested s
  end.

(** What a successful [WriteFile] is followed by: the status line, when
    more than [status_print_time] has passed since the last one. *)
Definition status_due (now : Z) (s : State) : bool :=
  (now - last_print_time s >? status_print_time)%Z.

Definition status_print (now : Z) (s : State) (sent : Z) : list Event :=
  if status_due now s
  then [Print cout (CR ++ spaces 120);
        Print cout (CR ++ "Messages sent: " ++ to_chars sent)]
  else [].

(** One instant of the loop. *)
Definition step (w : World) (cfg : Config) (s : State) : State :=
  let stop := deliver w s in
  let clock := steady_clock w (instant s) in
  let next := S (instant s) in
  match phase s with
  | Exited _ => s
  | LoopHead =>
      if stop
      then {| phase := Exited EXIT_SUCCESS; gStopRequested := stop;
              n := n s; messages_sent := messages_sent s;
              last_send_time := last_send_time s;
              last_print_time := last_print_time s;
              instant := next; attempts := attempts s;
              trace := trace s
                       ++ [Print cout (LF ++ "Got ctrl+c, exiting..." ++ LF);
                           Close] |}
      else {| phase := BusyWait; gStopRequested := stop;
              n := n s; messages_sent := messages_sent s;
              last_send_time := last_send_time s;
              last_print_time := last_print_time s;
              instant := next; attempts := attempts s;
              trace := trace s |}
  | BusyWait =>
      if (clock - last_send_time s <? sleep_time_ms cfg * ns_per_ms)%Z
      then {| phase := BusyWait; gStopRequested := stop;
              n := n s; messages_sent := messages_sent s;
              last_send_time := last_send_time s;
              last_print_time := last_print_time s;
              instant := next; attempts := attempts s;
              trace := trace s ++ [Sleep0] |}
      else {| phase := TakeNow; gStopRequested := stop;
              n := n s; messages_sent := messages_sent s;
              last_send_time := last_send_time s;
              last_print_time := last_print_time s;
              instant := next; attempts := attempts s;
              trace := trace s |}
  | TakeNow =>
      {| phase := Send clock; gStopRequested := stop;
         n := n s; messages_sent := messages_sent s;
         last_send_time := clock;
         last_print_time := last_print_time s;
         instant := next; attempts := attempts s;
         trace := trace s |}
  | Send now =>
      let msg := format_frame (n s) in
      match os_error w (WriteFile (attempts s)) with
      | Some e =>
          {| phase := Exited EXIT_FAILURE; gStopRequested := stop;
             n := n s; messages_sent := messages_sent s;
             last_send_time := last_send_time s;
             last_print_time := last_print_time s;
             instant := next; attempts := S (attempts s);
             trace := trace s
                      ++ [Write now (n s) msg false;
                          Print cerr ("Failed to write to " ++ comport cfg
                                      ++ " with error: " ++ e ++ LF);
                          Close] |}
      | None =>
          {| phase := LoopHead; gStopRequested := stop;
             n := int_flip (n s);
             messages_sent := uint_incr (messages_sent s);
             last_send_time := last_send_time s;
             last_print_time :=
               if status_due now s then now else last_print_time s;
             instant := next; attempts := S (attempts s);
             trace := trace s
                      ++ Write now (n s) msg true
                         :: status_print now s (uint_incr (messages_sent s)) |}
      end
  end.

(** The state [k] instants after [s]. *)
Fixpoint run (w : World) (cfg : Config) (k : nat) (s : State) : State :=
  match k with
  | O => s
  | S k' => step w cfg (run w cfg k' s)
  end.

(** ** [main] up to the loop *)

Inductive Startup : Type :=
| Return (code : Z) (tr : list Event)
| DivideByZero (tr : list Event)
| Enter (cfg : Config) (s : State).

Definition usage : string :=
  "Usage: excserial COM3 10 500 [Pulses with 10 pulses alternating +/- at 500 Hz]"
  ++ LF.

Definition cant_convert (arg : string) : string :=
  "Can't convert arg " ++ arg ++ " to number!" ++ LF.

(** [main(argc, argv)] from its first line to the line before the loop.
    The [DCB] that is filled in between [GetCommState] and
    [SetCommTimeouts] is a local that no call receives afterwards; it
    leaves no event.  The first reading of the clock is the one of
    instant 0, the loop starts at instant 1. *)
Definition main (w : World) (argv : list string) : Startup :=
  let arg i := nth i argv "" in
  if (Z.of_nat (List.length argv) <? 4)%Z then Return EXIT_SUCCESS [Print cout usage]
  else
    let t0 := [Print cout ("Starting excserial program..." ++ LF)] in
    match extract_int (arg 2%nat) with
    | None => Return EXIT_FAILURE (t0 ++ [Print cerr (cant_convert (arg 2%nat))])
    | Some n0 =>
    match extract_int (arg 3%nat) with
    | None => Return EXIT_FAILURE (t0 ++ [Print cerr (cant_convert (arg 2%nat))])
    | Some f0 =>
    if (f0 >? 1000)%Z
    then Return EXIT_FAILURE
           (t0 ++ [Print cerr ("Frequency cant be bigger than 1000" ++ LF)])
    else
    match int_div 1000 f0 with
    | None => DivideByZero t0
    | Some period =>
    match os_error w CreateFile with
    | Some e =>
        Return EXIT_FAILURE
          (t0 ++ [Print cerr ("CreateFile failed with error: " ++ e ++ LF)])
    | None =>
    let t1 := (t0 ++ [Open (arg 1%nat)])%list in
    match os_error w SetConsoleCtrlHandler with
    | Some e =>
        Return EXIT_FAILURE
          (t1 ++ [Print cerr ("Failed to set control handler: " ++ e ++ LF)])
    | None =>
    let t2 :=
      (t1 ++ match os_error w GetCommState with
             | Some e => [Print cerr ("GetCommState filed with error " ++ e ++ LF)]
             | None => []
             end
          ++ [Print cout ("Serial port successfully configured!" ++ LF)])%list in
    match os_error w SetCommTimeouts with
    | Some e =>
        Return EXIT_FAILURE
          (t2 ++ [Close;
                  Print cerr ("Could not set timeouts with error: " ++ e ++ LF)])
    | None =>
        Enter {| comport := arg 1%nat; f := f0; sleep_time_ms := period |}
              {| phase := LoopHead; gStopRequested := false;
                 n := n0; messages_sent := 0;
                 last_send_time := steady_clock w 0;
                 last_print_time := steady_clock w 0;
                 instant := 1; attempts := 0;
                 trace := t2 ++ [Print cout
                   ("Sending [+/-] " ++ to_chars n0 ++ " to " ++ arg 1%nat
                    ++ " with " ++ to_chars f0 ++ "Hz (" ++ to_chars period
                    ++ " ms)..." ++ LF)] |}
    end end end end end end.

(** The whole program: [main], then [fuel] instants of the loop. *)
Inductive Outcome : Type :=
| Finished (code : Z) (tr : list Event)
| Crashed (tr : list Event)
| Running (s : State).

Definition program (w : World) (argv : list string) (fuel : nat) : Outcome :=
  match main w argv with
  | Return code tr => Finished code tr
  | DivideByZero tr => Crashed tr
  | Enter cfg s =>
      let s' := run w cfg fuel s in
      match phase s' with
      | Exited code => Finished code (trace s')
      | _ => Running s'
      end
  end.

(** ** Reading a trace *)

Record Sent : Type := { sent_at : Z; value : Z; bytes : string; succeeded : bool }.

(** The calls of [WriteFile], oldest first. *)
Fixpoint writes (tr : list Event) : list Sent :=
  match tr with
  | [] => []
  | Write t v m ok :: r =>
      {| sent_at := t; value := v; bytes := m; succeeded := ok |} :: writes r
  | _ :: r => writes r
  end.

Fixpoint closes (tr : list Event) : nat :=
  match tr with
  | [] => 0
  | Close :: r => S (closes r)
  | _ :: r => closes r
  end.

Fixpoint opens (tr : list Event) : nat :=
  match tr with
  | [] => 0
  | Open _ :: r => S (opens r)
  | _ :: r => opens r
  end.

(** What went to a stream, oldest first. *)
Fixpoint printed (to : Stream) (tr : list Event) : list string :=
  match tr with
  | [] => []
  | Print cout text :: r =>
      match to with cout => text :: printed to r | cerr => printed to r end
  | Print cerr text :: r =>
      match to with cerr => text :: printed to r | cout => printed to r end
  | _ :: r => printed to r
  end.

(** ** Worlds and command lines used in examples *)

(** Every call succeeds, the clock advances one millisecond per instant,
    no control event arrives. *)
Definition calm : World :=
  {| os_error := fun _ => None;
     steady_clock := fun i => Z.of_nat i * ns_per_ms;
     ctrl_event := fun _ => None |}.

(** As [calm], with Ctrl-C at instant [i]. *)
Definition ctrl_c_at (i : nat) : World :=
  {| os_error := fun _ => None;
     steady_clock := fun i => Z.of_nat i * ns_per_ms;
     ctrl_event := fun j => if Nat.eqb j i then Some CTRL_C_EVENT else None |}.

(** As [calm], with the call [c] failing with the text [e]. *)
Definition failing (c : Call) (e : string) : World :=
  {| os_error := fun c' =>
       match c, c' with
       | CreateFile, CreateFile => Some e
       | SetConsoleCtrlHandler, SetConsoleCtrlHandler => Some e
       | GetCommState, GetCommState => Some e
       | SetCommTimeouts, SetCommTimeouts => Some e
       | WriteFile k, WriteFile k' => if Nat.eqb k k' then Some e else None
       | _, _ => None
       end;
     steady_clock := fun i => Z.of_nat i * ns_per_ms;
     ctrl_event := fun _ => None |}.

Definition com7_20_100 : list string := ["excserial"; "COM7"; "20"; "100"].

(** ** Notions used to state the properties *)

(** The value of [n] after [j] flips. *)
Definition flipped (n0 : Z) (j : nat) : Z := Nat.iter j int_flip n0.

(** Whether the call number [k] of [WriteFile] succeeds. *)
Definition write_ok (w : World) (k : nat) : bool :=
  match os_error w (WriteFile k) with
  | None => true
  | Some _ => false
  end.

(** The number of calls of [WriteFile] that succeeded. *)
Definition successes (tr : list Event) : nat :=
  List.length (filter succeeded (writes tr)).

Definition exit_code (s : State) : option Z :=
  match phase s with
  | Exited code => Some code
  | _ => None
  end.

(** Text made of one kind of characters. *)
Fixpoint all_chars (p : ascii -> bool) (s : string) : bool :=
  match s with
  | EmptyString => true
  | String c r => (p c && all_chars p r)%bool
  end.

(** The characters of a frame: the digits and [#], [,], [;], [-]. *)
Definition frame_char (c : ascii) : bool :=
  let k := nat_of_ascii c in
  ((Nat.leb 48 k && Nat.leb k 57) || Nat.eqb k 35 || Nat.eqb k 44
   || Nat.eqb k 59 || Nat.eqb k 45)%bool.

Definition newline_free (s : string) : bool :=
  all_chars (fun c => negb (Nat.eqb (nat_of_ascii c) 10)) s.

(** The decimal integer a text spells, if it spells one. *)
Definition decimal_value (s : string) : option Z :=
  option_map Z.of_int (NilZero.int_of_string s).

(** An entry of the loop: the state [main] hands over, with [n0] the
    value of the magnitude argument. *)
Record entry (n0 : Z) (s : State) : Prop := {
  entry_phase : phase s = LoopHead;
  entry_n : n s = n0;
  entry_int : in_int n0;
  entry_sent : messages_sent s = 0;
  entry_attempts : attempts s = 0%nat;
  entry_writes : writes (trace s) = [];
  entry_instant : (1 <= instant s)%nat;
  entry_stop : gStopRequested s = false
}.

(** What holds of every state of the loop started with the value [n0]. *)
Record invariant (w : World) (n0 : Z) (s : State) : Prop := {
  inv_attempts : List.length (writes (trace s)) = attempts s;
  inv_write : forall i x, nth_error (writes (trace s)) i = Some x ->
      value x = flipped n0 i
      /\ bytes x = format_frame (value x)
      /\ succeeded x = write_ok w i;
  inv_counter :
      messages_sent s = Z.of_nat (successes (trace s)) mod UINT_MODULUS;
  inv_phase :
      match phase s with
      | Exited code =>
          (code = EXIT_SUCCESS
           /\ successes (trace s) = attempts s
           /\ forall i, (i < attempts s)%nat -> write_ok w i = true)
          \/ (code = EXIT_FAILURE
              /\ exists a, attempts s = S a
                 /\ successes (trace s) = a
                 /\ write_ok w a = false
                 /\ forall i, (i < a)%nat -> write_ok w i = true)
      | _ =>
          n s = flipped n0 (attempts s)
          /\ successes (trace s) = attempts s
          /\ forall i, (i < attempts s)%nat -> write_ok w i = true
      end
}.

(** The readings of the clock never decrease. *)
Definition steady (w : World) : Prop :=
  forall i j, (i <= j)%nat -> steady_clock w i <= steady_clock w j.

(** The period of the loop in the unit of the clock. *)
Definition period_ns (cfg : Config) : Z := sleep_time_ms cfg * ns_per_ms.

(** The time of the last call of [WriteFile], if there was one. *)
Definition last_sent_at (tr : list Event) : option Z :=
  option_map sent_at
    (nth_error (writes tr) (pred (List.length (writes tr)))).

(** What holds of the times of the sends when the clock is steady. *)
Record paced (w : World) (cfg : Config) (s : State) : Prop := {
  paced_gaps : forall i x y,
      nth_error (writes (trace s)) i = Some x ->
      nth_error (writes (trace s)) (S i) = Some y ->
      sent_at x + period_ns cfg <= sent_at y;
  paced_phase :
      match phase s with
      | LoopHead | BusyWait =>
          forall t, last_sent_at (trace s) = Some t -> t = last_send_time s
      | TakeNow =>
          (forall t, last_sent_at (trace s) = Some t -> t = last_send_time s)
          /\ last_send_time s + period_ns cfg
             <= steady_clock w (pred (instant s))
      | Send now =>
          last_send_time s = now
          /\ forall t, last_sent_at (trace s) = Some t -> t + period_ns cfg <= now
      | Exited _ => True
      end
}.

(** ** [error_string] *)

Definition is_cr_or_lf (c : ascii) : bool :=
  (Nat.eqb (nat_of_ascii c) 13 || Nat.eqb (nat_of_ascii c) 10)%bool.

(** [while (!result.empty() && (result.back() == '\r' ||
    result.back() == '\n')) result.pop_back();] on the characters of
    [result] held last one first, so that [result.back()] is the head. *)
Fixpoint pop_back_newlines (reversed : list ascii) : list ascii :=
  match reversed with
  | c :: r => if is_cr_or_lf c then pop_back_newlines r else reversed
  | [] => []
  end.

(** [error_string(error_code)].  [FormatMessageA code] is the text the
    system call leaves in [buffer], and [None] when it returns the length
    0 or leaves [buffer] null. *)
Definition error_string (FormatMessageA : Z -> option string) (error_code : Z)
    : string :=
  match FormatMessageA error_code with
  | None => "Unknown error (" ++ to_chars error_code ++ ")"
  | Some buffer =>
      string_of_list_ascii
        (rev (pop_back_newlines (rev (list_ascii_of_string buffer))))
  end.

(** ** Further notions *)

(** The control types [CtrlHandler] answers with [TRUE]. *)
Definition handled : list Z :=
  [CTRL_C_EVENT; CTRL_BREAK_EVENT; CTRL_CLOSE_EVENT; CTRL_LOGOFF_EVENT;
   CTRL_SHUTDOWN_EVENT].

(** No control event that [CtrlHandler] handles ever arrives. *)
Definition undisturbed (w : World) : Prop :=
  forall i ty, ctrl_event w i = Some ty -> ~ In ty handled.

(** The clock gets past every time. *)
Definition advancing (w : World) : Prop :=
  forall i t, exists d, t <= steady_clock w (i + d).

(** The lines [Messages sent: ...] in a trace. *)
Definition status_prefix : string := CR ++ "Messages sent: ".

Fixpoint status_lines (tr : list Event) : nat :=
  match tr with
  | [] => 0
  | Print cout text :: r =>
      if prefix status_prefix text then S (status_lines r) else status_lines r
  | _ :: r => status_lines r
  end.


(** The calls of [Sleep(0)] in a trace. *)
Fixpoint yields (tr : list Event) : nat :=
  match tr with
  | [] => 0
  | Sleep0 :: r => S (yields r)
  | _ :: r => yields r
  end.

Definition trace_of (o : Outcome) : list Event :=
  match o with
  | Finished _ tr => tr
  | Crashed tr => tr
  | Running s => trace s
  end.


(** * Properties *)

(** ** Arithmetic of the 32-bit types *)

Lemma int_flip_opp (v : Z) : INT_MIN < v <= INT_MAX -> int_flip v = - v.
Proof.
  unfold int_flip, int_wrap, INT_MIN, INT_MAX, UINT_MODULUS. intros H.
  rewrite Z.mod_small by lia. lia.
Qed.

Lemma int_flip_min : int_flip INT_MIN = INT_MIN.
Proof. reflexivity. Qed.

Lemma int_flip_in_int (v : Z) : in_int v -> in_int (int_flip v).
Proof.
  unfold in_int. intros H.
  destruct (Z.eq_dec v INT_MIN) as [->|Hne].
  - rewrite int_flip_min. unfold INT_MIN, INT_MAX. lia.
  - rewrite int_flip_opp; unfold INT_MIN, INT_MAX in *; lia.
Qed.

Lemma int_flip_abs (v : Z) : in_int v -> Z.abs (int_flip v) = Z.abs v.
Proof.
  unfold in_int. intros H.
  destruct (Z.eq_dec v INT_MIN) as [->|Hne].
  - now rewrite int_flip_min.
  - rewrite int_flip_opp by (unfold INT_MIN in *; lia). apply Z.abs_opp.
Qed.

Lemma flipped_in_int (n0 : Z) (j : nat) : in_int n0 -> in_int (flipped n0 j).
Proof.
  intros H. induction j as [|j IH]; simpl; [exact H|].
  now apply int_flip_in_int.
Qed.

Lemma flipped_abs (n0 : Z) (j : nat) :
  in_int n0 -> Z.abs (flipped n0 j) = Z.abs n0.
Proof.
  intros H. induction j as [|j IH]; simpl; [reflexivity|].
  unfold flipped in *. rewrite int_flip_abs; [exact IH|].
  now apply (flipped_in_int n0 j).
Qed.

Lemma flipped_not_min (n0 : Z) (j : nat) :
  in_int n0 -> n0 <> INT_MIN -> flipped n0 j <> INT_MIN.
Proof.
  intros H Hne Heq. pose proof (flipped_abs n0 j H) as Ha.
  rewrite Heq in Ha. unfold in_int, INT_MIN, INT_MAX in *. lia.
Qed.

Lemma flipped_succ_opp (n0 : Z) (j : nat) :
  in_int n0 -> n0 <> INT_MIN -> flipped n0 (S j) = - flipped n0 j.
Proof.
  intros H Hne. change (flipped n0 (S j)) with (int_flip (flipped n0 j)).
  pose proof (flipped_in_int n0 j H) as Hr.
  pose proof (flipped_not_min n0 j H Hne) as Hm.
  apply int_flip_opp. unfold in_int in Hr. lia.
Qed.

Lemma flipped_parity (n0 : Z) (j : nat) :
  in_int n0 -> n0 <> INT_MIN ->
  flipped n0 j = if Nat.even j then n0 else - n0.
Proof.
  intros H Hne. induction j as [|j IH]; [reflexivity|].
  rewrite flipped_succ_opp, IH, Nat.even_succ, <- Nat.negb_even by assumption.
  destruct (Nat.even j); simpl; lia.
Qed.

(** ** What [extract_int] accepts *)

Lemma extract_int_in_int (arg : string) (v : Z) :
  extract_int arg = Some v -> in_int v.
Proof.
  unfold extract_int.
  destruct (match skip_ws arg with
            | String "-"%char r => (true, r)
            | String "+"%char r => (false, r)
            | _ => (false, skip_ws arg)
            end) as [negative rest].
  destruct (read_digits rest None) as [m|]; [|discriminate].
  destruct ((INT_MIN <=? (if negative then - m else m))%Z
            && ((if negative then - m else m) <=? INT_MAX)%Z)%bool eqn:E;
    [|discriminate].
  intros [= <-]. apply andb_prop in E. unfold in_int. lia.
Qed.

Example extract_plain : extract_int "20" = Some 20.
Proof. reflexivity. Qed.

Example extract_prefix : extract_int " -15xyz" = Some (-15).
Proof. reflexivity. Qed.

Example extract_letters : extract_int "abc" = None.
Proof. reflexivity. Qed.

Example extract_too_big : extract_int "2147483648" = None.
Proof. reflexivity. Qed.

Example extract_int_min : extract_int "-2147483648" = Some INT_MIN.
Proof. reflexivity. Qed.

(** ** Traces *)

Lemma writes_app (a b : list Event) : writes (a ++ b) = (writes a ++ writes b)%list.
Proof.
  induction a as [|e a IH]; [reflexivity|].
  destruct e; simpl; rewrite IH; reflexivity.
Qed.

Lemma closes_app (a b : list Event) : closes (a ++ b) = (closes a + closes b)%nat.
Proof.
  induction a as [|e a IH]; [reflexivity|].
  destruct e; simpl; rewrite IH; reflexivity.
Qed.

Lemma writes_status_print (now : Z) (s : State) (c : Z) :
  writes (status_print now s c) = [].
Proof. unfold status_print. destruct (status_due now s); reflexivity. Qed.

Lemma closes_status_print (now : Z) (s : State) (c : Z) :
  closes (status_print now s c) = 0%nat.
Proof. unfold status_print. destruct (status_due now s); reflexivity. Qed.

Lemma nth_error_snoc {A : Type} (l : list A) (x y : A) (i : nat) :
  nth_error (l ++ [x]) i = Some y ->
  nth_error l i = Some y \/ (i = List.length l /\ y = x).
Proof.
  intros H. destruct (Nat.lt_ge_cases i (List.length l)) as [Hlt|Hge].
  - left. now rewrite nth_error_app1 in H.
  - right. rewrite nth_error_app2 in H by assumption.
    destruct (i - List.length l)%nat as [|d] eqn:E.
    + simpl in H. injection H as <-. split; [lia|reflexivity].
    + simpl in H. destruct d; discriminate.
Qed.

Lemma successes_app (a b : list Event) :
  successes (a ++ b) = (successes a + successes b)%nat.
Proof.
  unfold successes. now rewrite writes_app, filter_app, length_app.
Qed.

Lemma successes_no_write (tr : list Event) : writes tr = [] -> successes tr = 0%nat.
Proof. unfold successes. now intros ->. Qed.

(** ** The invariant of the loop *)

Section Loop.

Variables (w : World) (cfg : Config) (n0 : Z).

Lemma uint_incr_count (c : nat) :
  uint_incr (Z.of_nat c mod UINT_MODULUS) = Z.of_nat (S c) mod UINT_MODULUS.
Proof.
  unfold uint_incr. rewrite Zplus_mod_idemp_l. f_equal. lia.
Qed.

Lemma invariant_entry (s : State) : entry n0 s -> invariant w n0 s.
Proof.
  intros [Hp Hn _ Hc Ha Hw _ _]. constructor.
  - now rewrite Hw, Ha.
  - intros i x. rewrite Hw. destruct i; discriminate.
  - rewrite successes_no_write, Hc by assumption. reflexivity.
  - rewrite Hp, Ha, successes_no_write by assumption.
    repeat split; [exact Hn | intros i Hi; lia].
Qed.

Lemma invariant_step (s : State) :
  invariant w n0 s -> invariant w n0 (step w cfg s).
Proof.
  intros [Ha Hw Hc Hp]. unfold step.
  destruct (phase s) as [| | |now|code] eqn:Ephase.
  - (* LoopHead *)
    destruct (deliver w s); constructor; simpl;
      rewrite ?writes_app, ?successes_app, ?app_nil_r, ?Nat.add_0_r; simpl;
      rewrite ?app_nil_r, ?Nat.add_0_r; try assumption.
    + left. destruct Hp as (_ & Hs & Hok). auto.
  - (* BusyWait *)
    destruct (steady_clock w (instant s) - last_send_time s
              <? sleep_time_ms cfg * ns_per_ms)%Z; constructor; simpl;
      rewrite ?writes_app, ?successes_app, ?app_nil_r, ?Nat.add_0_r; simpl;
      rewrite ?app_nil_r, ?Nat.add_0_r; assumption.
  - (* TakeNow *)
    constructor; simpl; assumption.
  - (* Send *)
    destruct Hp as (Hn & Hs & Hok).
    destruct (os_error w (WriteFile (attempts s))) as [e|] eqn:Eos.
    + constructor; simpl.
      * rewrite writes_app, length_app. simpl. lia.
      * intros i x. rewrite writes_app. simpl. intros H.
        apply nth_error_snoc in H. destruct H as [H|[-> ->]]; [now apply Hw|].
        simpl. rewrite Ha, Hn. unfold write_ok. rewrite Eos. auto.
      * rewrite successes_app. unfold successes at 2. simpl.
        now rewrite Nat.add_0_r.
      * right. split; [reflexivity|]. exists (attempts s).
        rewrite successes_app. unfold successes at 2. simpl.
        rewrite Nat.add_0_r. unfold write_ok at 1. rewrite Eos. auto.
    + constructor; simpl.
      * rewrite writes_app. simpl. rewrite writes_status_print, length_app.
        simpl. lia.
      * intros i x. rewrite writes_app. simpl. rewrite writes_status_print.
        intros H.
        apply nth_error_snoc in H. destruct H as [H|[-> ->]]; [now apply Hw|].
        simpl. rewrite Ha, Hn. unfold write_ok. rewrite Eos. auto.
      * rewrite successes_app. unfold successes at 2. simpl.
        rewrite writes_status_print. simpl. rewrite Hc, uint_incr_count.
        f_equal. lia.
      * rewrite successes_app. unfold successes at 2. simpl.
        rewrite writes_status_print. simpl. rewrite Hn.
        repeat split; [lia|].
        intros i Hi. destruct (Nat.eq_dec i (attempts s)) as [->|Hne].
        -- unfold write_ok. now rewrite Eos.
        -- apply Hok. lia.
  - (* Exited *)
    constructor; try assumption. now rewrite Ephase.
Qed.

Lemma invariant_run (s : State) (k : nat) :
  entry n0 s -> invariant w n0 (run w cfg k s).
Proof.
  intros H. induction k as [|k IH]; simpl.
  - now apply invariant_entry.
  - now apply invariant_step.
Qed.

End Loop.

Lemma run_add (w : World) (cfg : Config) (a b : nat) (s : State) :
  run w cfg (a + b) s = run w cfg a (run w cfg b s).
Proof. induction a as [|a IH]; simpl; [reflexivity|now rewrite IH]. Qed.

(** [n] only changes by the flip that follows a successful write. *)
Lemma step_n (w : World) (cfg : Config) (s : State) :
  n (step w cfg s) = n s
  \/ (exists now, phase s = Send now)
     /\ write_ok w (attempts s) = true
     /\ n (step w cfg s) = int_flip (n s).
Proof.
  unfold step, write_ok. destruct (phase s) eqn:E; simpl; auto.
  - destruct (deliver w s); auto.
  - destruct (_ <? _)%Z; auto.
  - destruct (os_error w (WriteFile (attempts s))); simpl; eauto.
Qed.

Lemma run_n_flipped (w : World) (cfg : Config) (n0 : Z) (s : State) (k : nat) :
  n s = n0 -> exists j, n (run w cfg k s) = flipped n0 j.
Proof.
  intros H. induction k as [|k [j IH]]; simpl.
  - now exists 0%nat.
  - destruct (step_n w cfg (run w cfg k s)) as [E|(_ & _ & E)]; rewrite E, IH.
    + now exists j.
    + now exists (S j).
Qed.

(** ** What [main] hands over to the loop *)

Lemma int_div_1000 (d : Z) :
  in_int d -> d <> 0 -> int_div 1000 d = Some (Z.quot 1000 d).
Proof.
  intros Hd Hz. unfold int_div. destruct (Z.eqb_spec d 0) as [|_]; [contradiction|].
  f_equal. unfold int_wrap, UINT_MODULUS.
  assert (Z.abs (Z.quot 1000 d) <= 1000) as Hq.
  { rewrite <- Z.quot_abs by assumption.
    transitivity (Z.abs 1000); [|simpl; lia].
    apply Z.quot_le_upper_bound; lia. }
  rewrite Z.mod_small by lia. lia.
Qed.

Lemma main_enter (w : World) (argv : list string) (cfg : Config) (s0 : State) :
  main w argv = Enter cfg s0 ->
  exists n0 f0,
    extract_int (nth 2 argv "") = Some n0
    /\ extract_int (nth 3 argv "") = Some f0
    /\ f0 <= 1000 /\ f0 <> 0
    /\ sleep_time_ms cfg = Z.quot 1000 f0
    /\ entry n0 s0
    /\ closes (trace s0) = 0%nat
    /\ instant s0 = 1%nat
    /\ last_send_time s0 = steady_clock w 0.
Proof.
  unfold main. destruct (_ <? 4)%Z; [discriminate|].
  destruct (extract_int (nth 2 argv "")) as [n0|] eqn:En; [|discriminate].
  destruct (extract_int (nth 3 argv "")) as [f0|] eqn:Ef; [|discriminate].
  destruct (Z.gtb_spec f0 1000) as [|Hf]; [discriminate|].
  destruct (Z.eq_dec f0 0) as [->|Hz]; [discriminate|].
  rewrite int_div_1000 by eauto using extract_int_in_int.
  destruct (os_error w CreateFile); [discriminate|].
  destruct (os_error w SetConsoleCtrlHandler); [discriminate|].
  destruct (os_error w SetCommTimeouts); [discriminate|].
  intros [= <- <-]. exists n0, f0. simpl.
  repeat split; try reflexivity; try assumption; try lia;
    try (now apply (extract_int_in_int (nth 2 argv "")));
    destruct (os_error w GetCommState); reflexivity.
Qed.

Lemma main_invariant (w : World) (argv : list string) (cfg : Config)
    (s0 : State) (m : Z) (k : nat) :
  main w argv = Enter cfg s0 ->
  extract_int (nth 2 argv "") = Some m ->
  in_int m /\ n s0 = m /\ invariant w m (run w cfg k s0).
Proof.
  intros Hm Em. destruct (main_enter _ _ _ _ Hm) as (n0 & f0 & En & _ & _ & _ & _ & He & _).
  rewrite Em in En. injection En as <-.
  split; [apply He|]. split; [apply He|]. now apply invariant_run.
Qed.

(** ** The text of a frame *)

Lemma all_chars_app (p : ascii -> bool) (a b : string) :
  all_chars p (a ++ b) = (all_chars p a && all_chars p b)%bool.
Proof.
  induction a as [|c a IH]; simpl; [reflexivity|].
  now rewrite IH, andb_assoc.
Qed.

Lemma all_chars_weaken (p q : ascii -> bool) (s : string) :
  (forall c, p c = true -> q c = true) ->
  all_chars p s = true -> all_chars q s = true.
Proof.
  intros Hpq. induction s as [|c s IH]; simpl; [reflexivity|].
  intros H. apply andb_prop in H. destruct H as [Hc Hs].
  now rewrite (Hpq c Hc), IH.
Qed.

Lemma uint_frame_chars (d : Decimal.uint) :
  all_chars frame_char (NilEmpty.string_of_uint d) = true.
Proof. induction d; simpl; try rewrite IHd; reflexivity. Qed.

Lemma to_chars_frame_chars (v : Z) : all_chars frame_char (to_chars v) = true.
Proof.
  unfold to_chars, NilZero.string_of_int, NilZero.string_of_uint.
  destruct (Z.to_int v) as [d|d]; destruct d; try reflexivity;
    apply (uint_frame_chars (_ _)) || (simpl; apply (uint_frame_chars _)).
Qed.

Lemma format_frame_chars (v : Z) : all_chars frame_char (format_frame v) = true.
Proof.
  unfold format_frame.
  repeat (rewrite ?all_chars_app, ?to_chars_frame_chars; simpl).
  reflexivity.
Qed.

Lemma frame_char_not_newline (c : ascii) :
  frame_char c = true -> negb (Nat.eqb (nat_of_ascii c) 10) = true.
Proof.
  unfold frame_char. destruct (Nat.eqb_spec (nat_of_ascii c) 10) as [->|]; auto.
Qed.

Lemma format_frame_newline_free (v : Z) : newline_free (format_frame v) = true.
Proof.
  unfold newline_free.
  apply (all_chars_weaken frame_char); [apply frame_char_not_newline|].
  apply format_frame_chars.
Qed.

Lemma to_chars_decimal (v : Z) : decimal_value (to_chars v) = Some v.
Proof.
  unfold decimal_value, to_chars. rewrite NilZero.isi.
  - simpl. now rewrite DecimalZ.of_to.
  - destruct v; simpl; try discriminate.
    intros [= H]. now apply DecimalPos.Unsigned.to_uint_nonnil in H.
  - destruct v; simpl; try discriminate.
    intros [= H]. now apply DecimalPos.Unsigned.to_uint_nonnil in H.
Qed.

(** ** The values and frames that are sent *)

(** As long as the magnitude argument is not [INT_MIN], two successive
    successful writes carry opposite values. *)
Lemma successive_values_opposite (w : World) (argv : list string) (cfg : Config)
    (s0 : State) (m : Z) (k i : nat) (x y : Sent) :
  main w argv = Enter cfg s0 ->
  extract_int (nth 2 argv "") = Some m ->
  m <> INT_MIN ->
  nth_error (writes (trace (run w cfg k s0))) i = Some x ->
  nth_error (writes (trace (run w cfg k s0))) (S i) = Some y ->
  succeeded x = true -> succeeded y = true ->
  value y = - value x.
Proof.
  intros Hm Em Hne Hx Hy _ _.
  destruct (main_invariant w argv cfg s0 m k Hm Em) as (Hint & _ & Hinv).
  destruct (inv_write _ _ _ Hinv _ _ Hx) as (-> & _).
  destruct (inv_write _ _ _ Hinv _ _ Hy) as (-> & _).
  now apply flipped_succ_opp.
Qed.

(** C2, at the magnitude argument [-2147483648]: [n *= -1] overflows
    the [int] and leaves [n] as it was, so the second frame carries the
    same value as the first, not its negation. *)
Theorem int_min_is_not_negated :
  exists s,
    program calm ["excserial"; "COM7"; "-2147483648"; "1000"] 9 = Running s
    /\ map (fun x => (value x, bytes x, succeeded x)) (writes (trace s))
       = [(-2147483648, "#-2147483648,-2147483648,-2147483648,-2147483648;", true);
          (-2147483648, "#-2147483648,-2147483648,-2147483648,-2147483648;", true)].
Proof. eexists. split; vm_compute; reflexivity. Qed.

(** C3: in a run started with the magnitude argument [m], every frame
    carries a value of absolute value [|m|] (which is [m] itself for a
    magnitude [m >= 0]), the variable [n] keeps that absolute value in
    every state, and a step changes [n] only when it is the step of a
    successful write. *)
Theorem magnitude_is_invariant (w : World) (argv : list string) (cfg : Config)
    (s0 : State) (m : Z) (k : nat) :
  main w argv = Enter cfg s0 ->
  extract_int (nth 2 argv "") = Some m ->
  let s := run w cfg k s0 in
  (forall x, In x (writes (trace s)) ->
     Z.abs (value x) = Z.abs m /\ (0 <= m -> Z.abs (value x) = m))
  /\ Z.abs (n s) = Z.abs m
  /\ (n (step w cfg s) <> n s ->
      (exists now, phase s = Send now) /\ write_ok w (attempts s) = true).
Proof.
  intros Hm Em s.
  destruct (main_invariant w argv cfg s0 m k Hm Em) as (Hint & Hn & Hinv).
  split; [|split].
  - intros x Hx. apply In_nth_error in Hx. destruct Hx as [i Hi].
    destruct (inv_write _ _ _ Hinv _ _ Hi) as (-> & _).
    rewrite flipped_abs by assumption. split; [reflexivity|lia].
  - destruct (run_n_flipped w cfg m s0 k Hn) as [j Hj].
    unfold s. rewrite Hj. now apply flipped_abs.
  - intros Hne. destruct (step_n w cfg s) as [E|(Hs & Hok & _)]; [contradiction|].
    now split.
Qed.

Lemma magnitude_is_invariant_witness :
  let s := run calm {| comport := "COM7"; f := 100; sleep_time_ms := 10 |} 40
    {| phase := LoopHead; gStopRequested := false; n := 20; messages_sent := 0;
       last_send_time := 0; last_print_time := 0; instant := 1; attempts := 0;
       trace := [Print cout ("Starting excserial program..." ++ LF);
                 Open "COM7";
                 Print cout ("Serial port successfully configured!" ++ LF);
                 Print cout ("Sending [+/-] 20 to COM7 with 100Hz (10 ms)..." ++ LF)] |} in
  (forall x, In x (writes (trace s)) ->
     Z.abs (value x) = Z.abs 20 /\ (0 <= 20 -> Z.abs (value x) = 20))
  /\ Z.abs (n s) = Z.abs 20
  /\ (n (step calm {| comport := "COM7"; f := 100; sleep_time_ms := 10 |} s) <> n s ->
      (exists now, phase s = Send now) /\ write_ok calm (attempts s) = true).
Proof.
  apply (magnitude_is_invariant calm com7_20_100); reflexivity.
Defined.

(** C5: every frame handed to [WriteFile] is [#v,v,v,v;] with [v] the
    decimal text of the value of [n] at that moment, the same in the four
    fields; it is made of digits, [-], [#], [,] and [;] only and holds no
    newline; with the magnitude 20 the frames are [#20,20,20,20;] and
    [#-20,-20,-20,-20;] in turn, starting with the first. *)
Theorem frame_is_four_times_the_value (w : World) (argv : list string)
    (cfg : Config) (s0 : State) (m : Z) (k i : nat) (x : Sent) :
  main w argv = Enter cfg s0 ->
  extract_int (nth 2 argv "") = Some m ->
  nth_error (writes (trace (run w cfg k s0))) i = Some x ->
  value x = flipped m i
  /\ bytes x = "#" ++ to_chars (value x) ++ "," ++ to_chars (value x) ++ ","
                 ++ to_chars (value x) ++ "," ++ to_chars (value x) ++ ";"
  /\ decimal_value (to_chars (value x)) = Some (value x)
  /\ all_chars frame_char (bytes x) = true
  /\ newline_free (bytes x) = true
  /\ (m = 20 ->
      bytes x = if Nat.even i then "#20,20,20,20;" else "#-20,-20,-20,-20;").
Proof.
  intros Hm Em Hx.
  destruct (main_invariant w argv cfg s0 m k Hm Em) as (Hint & _ & Hinv).
  destruct (inv_write _ _ _ Hinv _ _ Hx) as (Hv & Hb & _).
  split; [exact Hv|]. split; [exact Hb|].
  split; [apply to_chars_decimal|].
  split; [rewrite Hb; apply format_frame_chars|].
  split; [rewrite Hb; apply format_frame_newline_free|].
  intros ->. rewrite Hb, Hv, flipped_parity by (assumption || discriminate).
  destruct (Nat.even i); reflexivity.
Qed.

Lemma frame_is_four_times_the_value_witness :
  let x := {| sent_at := 22000000; value := -20;
              bytes := "#-20,-20,-20,-20;"; succeeded := true |} in
  value x = flipped 20 1
  /\ bytes x = "#" ++ to_chars (value x) ++ "," ++ to_chars (value x) ++ ","
                 ++ to_chars (value x) ++ "," ++ to_chars (value x) ++ ";"
  /\ decimal_value (to_chars (value x)) = Some (value x)
  /\ all_chars frame_char (bytes x) = true
  /\ newline_free (bytes x) = true
  /\ (20 = 20 ->
      bytes x = if Nat.even 1 then "#20,20,20,20;" else "#-20,-20,-20,-20;").
Proof.
  eapply (frame_is_four_times_the_value calm com7_20_100 _ _ 20 40 1);
    reflexivity.
Defined.

(** ** The counter of sent messages *)

Lemma step_messages_sent (w : World) (cfg : Config) (s : State) :
  match phase s with
  | Send _ =>
      if write_ok w (attempts s)
      then messages_sent (step w cfg s) = (messages_sent s + 1) mod UINT_MODULUS
           /\ successes (trace (step w cfg s)) = S (successes (trace s))
      else messages_sent (step w cfg s) = messages_sent s
           /\ successes (trace (step w cfg s)) = successes (trace s)
           /\ phase (step w cfg s) = Exited EXIT_FAILURE
  | _ => messages_sent (step w cfg s) = messages_sent s
         /\ successes (trace (step w cfg s)) = successes (trace s)
  end.
Proof.
  unfold step, write_ok. destruct (phase s) eqn:E; simpl.
  - destruct (deliver w s); simpl; rewrite ?successes_app; simpl;
      split; (reflexivity || (unfold successes; simpl; lia)).
  - destruct (_ <? _)%Z; simpl; rewrite ?successes_app; simpl;
      split; (reflexivity || (unfold successes; simpl; lia)).
  - split; reflexivity.
  - destruct (os_error w (WriteFile (attempts s))); simpl;
      rewrite successes_app; unfold successes at 2; simpl;
      rewrite ?writes_status_print; simpl.
    + repeat split; lia.
    + split; [reflexivity|lia].
  - split; reflexivity.
Qed.

(** *** The equations of [step], one per branch of the loop *)

Section StepEquations.

Variables (w : World) (cfg : Config) (s : State).

Lemma step_head_stop :
  phase s = LoopHead -> deliver w s = true ->
  step w cfg s =
    {| phase := Exited EXIT_SUCCESS; gStopRequested := true;
       n := n s; messages_sent := messages_sent s;
       last_send_time := last_send_time s;
       last_print_time := last_print_time s;
       instant := S (instant s); attempts := attempts s;
       trace := trace s
                ++ [Print cout (LF ++ "Got ctrl+c, exiting..." ++ LF); Close] |}.
Proof. intros Hp Hd. unfold step. now rewrite Hp, Hd. Qed.

Lemma step_head_go :
  phase s = LoopHead -> deliver w s = false ->
  step w cfg s =
    {| phase := BusyWait; gStopRequested := false;
       n := n s; messages_sent := messages_sent s;
       last_send_time := last_send_time s;
       last_print_time := last_print_time s;
       instant := S (instant s); attempts := attempts s;
       trace := trace s |}.
Proof. intros Hp Hd. unfold step. now rewrite Hp, Hd. Qed.

Lemma step_wait_yield :
  phase s = BusyWait ->
  steady_clock w (instant s) - last_send_time s < period_ns cfg ->
  step w cfg s =
    {| phase := BusyWait; gStopRequested := deliver w s;
       n := n s; messages_sent := messages_sent s;
       last_send_time := last_send_time s;
       last_print_time := last_print_time s;
       instant := S (instant s); attempts := attempts s;
       trace := trace s ++ [Sleep0] |}.
Proof.
  intros Hp Hc. unfold step. rewrite Hp. unfold period_ns in Hc.
  now destruct (Z.ltb_spec (steady_clock w (instant s) - last_send_time s)
                           (sleep_time_ms cfg * ns_per_ms)); [|lia].
Qed.

Lemma step_wait_release :
  phase s = BusyWait ->
  period_ns cfg <= steady_clock w (instant s) - last_send_time s ->
  step w cfg s =
    {| phase := TakeNow; gStopRequested := deliver w s;
       n := n s; messages_sent := messages_sent s;
       last_send_time := last_send_time s;
       last_print_time := last_print_time s;
       instant := S (instant s); attempts := attempts s;
       trace := trace s |}.
Proof.
  intros Hp Hc. unfold step. rewrite Hp. unfold period_ns in Hc.
  now destruct (Z.ltb_spec (steady_clock w (instant s) - last_send_time s)
                           (sleep_time_ms cfg * ns_per_ms)); [lia|].
Qed.

Lemma step_take_now :
  phase s = TakeNow ->
  step w cfg s =
    {| phase := Send (steady_clock w (instant s));
       gStopRequested := deliver w s;
       n := n s; messages_sent := messages_sent s;
       last_send_time := steady_clock w (instant s);
       last_print_time := last_print_time s;
       instant := S (instant s); attempts := attempts s;
       trace := trace s |}.
Proof. intros Hp. unfold step. now rewrite Hp. Qed.

Lemma step_send_ok (now : Z) :
  phase s = Send now -> write_ok w (attempts s) = true ->
  step w cfg s =
    {| phase := LoopHead; gStopRequested := deliver w s;
       n := int_flip (n s);
       messages_sent := uint_incr (messages_sent s);
       last_send_time := last_send_time s;
       last_print_time := if status_due now s then now else last_print_time s;
       instant := S (instant s); attempts := S (attempts s);
       trace := trace s
                ++ Write now (n s) (format_frame (n s)) true
                   :: status_print now s (uint_incr (messages_sent s)) |}.
Proof.
  intros Hp Hok. unfold step. rewrite Hp. unfold write_ok in Hok.
  now destruct (os_error w (WriteFile (attempts s))).
Qed.

Lemma step_send_fail (now : Z) :
  phase s = Send now -> write_ok w (attempts s) = false ->
  exists e,
  step w cfg s =
    {| phase := Exited EXIT_FAILURE; gStopRequested := deliver w s;
       n := n s; messages_sent := messages_sent s;
       last_send_time := last_send_time s;
       last_print_time := last_print_time s;
       instant := S (instant s); attempts := S (attempts s);
       trace := trace s
                ++ [Write now (n s) (format_frame (n s)) false;
                    Print cerr ("Failed to write to " ++ comport cfg
                                ++ " with error: " ++ e ++ LF);
                    Close] |}.
Proof.
  intros Hp Hok. unfold step. rewrite Hp. unfold write_ok in Hok.
  destruct (os_error w (WriteFile (attempts s))) as [e|]; [|discriminate].
  now exists e.
Qed.

End StepEquations.

(** In the world [calm], with a period of one millisecond, the loop goes
    from its head to the write in three instants and back to its head in
    a fourth, never waiting. *)
Section CalmCycle.

Variable cfg : Config.
Hypothesis one_ms : sleep_time_ms cfg = 1.

Lemma deliver_calm (s : State) : deliver calm s = gStopRequested s.
Proof. reflexivity. Qed.

Lemma calm_head_to_send (s : State) :
  phase s = LoopHead -> gStopRequested s = false ->
  last_send_time s <= Z.of_nat (instant s) * ns_per_ms ->
  let s' := run calm cfg 3 s in
  (exists now, phase s' = Send now) /\ gStopRequested s' = false
  /\ last_send_time s' <= Z.of_nat (instant s') * ns_per_ms
  /\ messages_sent s' = messages_sent s.
Proof.
  intros Hp Hs Hl.
  change (run calm cfg 3 s)
    with (step calm cfg (step calm cfg (step calm cfg s))).
  rewrite (step_head_go calm cfg s Hp) by now rewrite deliver_calm.
  match goal with
  | |- context [step calm cfg (step calm cfg ?x)] =>
      rewrite (step_wait_release calm cfg x); [|reflexivity|]
  end.
  - match goal with
    | |- context [step calm cfg ?x] =>
        rewrite (step_take_now calm cfg x) by reflexivity
    end.
    cbn [phase gStopRequested last_send_time instant messages_sent deliver
         ctrl_event calm steady_clock].
    repeat split; [eexists; reflexivity | unfold ns_per_ms; lia].
  - cbn [last_send_time instant calm steady_clock]. unfold period_ns.
    rewrite one_ms. unfold ns_per_ms in *. lia.
Qed.

Lemma calm_send_to_head (s : State) :
  (exists now, phase s = Send now) -> gStopRequested s = false ->
  last_send_time s <= Z.of_nat (instant s) * ns_per_ms ->
  let s' := step calm cfg s in
  phase s' = LoopHead /\ gStopRequested s' = false
  /\ last_send_time s' <= Z.of_nat (instant s') * ns_per_ms
  /\ messages_sent s' = uint_incr (messages_sent s).
Proof.
  intros [now Hp] Hs Hl.
  rewrite (step_send_ok calm cfg s now Hp) by reflexivity.
  cbn [phase gStopRequested last_send_time instant messages_sent].
  rewrite deliver_calm.
  repeat split; [assumption | unfold ns_per_ms in *; lia].
Qed.

Lemma calm_cycles (s : State) (c K : nat) :
  phase s = LoopHead -> gStopRequested s = false ->
  last_send_time s <= Z.of_nat (instant s) * ns_per_ms ->
  messages_sent s = Z.of_nat c mod UINT_MODULUS ->
  let s' := run calm cfg (4 * K) s in
  phase s' = LoopHead /\ gStopRequested s' = false
  /\ last_send_time s' <= Z.of_nat (instant s') * ns_per_ms
  /\ messages_sent s' = Z.of_nat (c + K) mod UINT_MODULUS.
Proof.
  intros Hp Hs Hl Hc. induction K as [|K IH].
  - rewrite Nat.mul_0_r, Nat.add_0_r. simpl. auto.
  - replace (4 * S K)%nat with (1 + (3 + 4 * K))%nat by lia.
    rewrite run_add, (run_add calm cfg 3).
    destruct IH as (Hp' & Hs' & Hl' & Hc').
    destruct (calm_head_to_send _ Hp' Hs' Hl') as (Hp3 & Hs3 & Hl3 & Hc3).
    destruct (calm_send_to_head _ Hp3 Hs3 Hl3) as (Hp4 & Hs4 & Hl4 & Hc4).
    change (run calm cfg 1 ?x) with (step calm cfg x).
    repeat split; try assumption.
    rewrite Hc4, Hc3, Hc', uint_incr_count. f_equal. lia.
Qed.

End CalmCycle.

(** C4, as it is stated, fails once 4294967295 writes have succeeded:
    the next successful write takes the [unsigned int] counter to 0. *)
Lemma counter_wraps_to_zero :
  exists cfg s0 k,
    main calm ["excserial"; "COM7"; "20"; "1000"] = Enter cfg s0
    /\ (exists now, phase (run calm cfg k s0) = Send now)
    /\ write_ok calm (attempts (run calm cfg k s0)) = true
    /\ messages_sent (run calm cfg k s0) = 4294967295
    /\ messages_sent (step calm cfg (run calm cfg k s0)) = 0.
Proof.
  let r := eval vm_compute in (main calm ["excserial"; "COM7"; "20"; "1000"]) in
  match r with
  | Enter ?c ?s => exists c, s, (3 + 4 * Z.to_nat 4294967295)%nat
  end.
  split; [vm_compute; reflexivity|].
  rewrite run_add.
  match goal with
  | |- context [run calm ?c (4 * ?K) ?s] =>
      destruct (calm_cycles c eq_refl s 0 K eq_refl eq_refl) as (Hp & Hs & Hl & Hc);
        [cbn [last_send_time instant]; unfold ns_per_ms; simpl; lia
        |reflexivity|];
      destruct (calm_head_to_send c eq_refl _ Hp Hs Hl) as (Hp3 & Hs3 & Hl3 & Hc3);
      destruct (calm_send_to_head c _ Hp3 Hs3 Hl3) as (_ & _ & _ & Hc4)
  end.
  rewrite Nat.add_0_l, Z2Nat.id in Hc by lia.
  split; [exact Hp3|]. split; [reflexivity|].
  rewrite Hc4, Hc3, Hc. split; reflexivity.
Qed.

(** C4, amended: the counter starts at 0 and is, in every state, the
    number of successful writes modulo 2^32 (so that number itself as
    long as it is below 2^32); a successful write adds 1 to it modulo
    2^32 (exactly 1 unless it stands at 4294967295), a failed write
    leaves it as it is and ends the program with the failure code, and
    no other step touches it; when the first four writes succeed and
    the fifth fails the program ends with the counter at 4. *)
Theorem counter_counts_successes (w : World) (argv : list string) (cfg : Config)
    (s0 : State) (k : nat) :
  main w argv = Enter cfg s0 ->
  let s := run w cfg k s0 in
  messages_sent s0 = 0
  /\ messages_sent s = Z.of_nat (successes (trace s)) mod UINT_MODULUS
  /\ (Z.of_nat (successes (trace s)) < UINT_MODULUS ->
      messages_sent s = Z.of_nat (successes (trace s)))
  /\ match phase s with
     | Send _ =>
         if write_ok w (attempts s)
         then messages_sent (step w cfg s) = (messages_sent s + 1) mod UINT_MODULUS
              /\ (messages_sent s <> 4294967295 ->
                  messages_sent (step w cfg s) = messages_sent s + 1)
              /\ successes (trace (step w cfg s)) = S (successes (trace s))
         else messages_sent (step w cfg s) = messages_sent s
              /\ successes (trace (step w cfg s)) = successes (trace s)
              /\ phase (step w cfg s) = Exited EXIT_FAILURE
     | _ => messages_sent (step w cfg s) = messages_sent s
            /\ successes (trace (step w cfg s)) = successes (trace s)
     end
  /\ ((forall i, (i < 4)%nat -> write_ok w i = true) ->
      write_ok w 4 = false ->
      phase s = Exited EXIT_FAILURE ->
      messages_sent s = 4 /\ attempts s = 5%nat).
Proof.
  intros Hm s.
  destruct (main_enter _ _ _ _ Hm) as (n0 & f0 & En & _ & _ & _ & _ & He & _).
  pose proof (invariant_run w cfg n0 s0 k He) as Hinv. fold s in Hinv.
  pose proof (inv_counter _ _ _ Hinv) as Hc.
  assert (0 <= messages_sent s < UINT_MODULUS) as Hrange
    by (rewrite Hc; apply Z.mod_pos_bound; reflexivity).
  split; [apply He|]. split; [exact Hc|]. split; [|split].
  - intros Hlt. rewrite Hc. apply Z.mod_small. lia.
  - pose proof (step_messages_sent w cfg s) as Hstep.
    destruct (phase s); try exact Hstep.
    destruct (write_ok w (attempts s)); [|exact Hstep].
    destruct Hstep as [H1 H2]. split; [exact H1|]. split; [|exact H2].
    intros Hne. rewrite H1. apply Z.mod_small. unfold UINT_MODULUS in *. lia.
  - intros Hfirst Hfifth Hp. pose proof (inv_phase _ _ _ Hinv) as Hph.
    rewrite Hp in Hph. destruct Hph as [(Hcode & _)|(_ & a & Ha & Hsucc & Hko & Hok)];
      [discriminate|].
    assert (a = 4%nat) as ->.
    { destruct (Nat.lt_trichotomy a 4) as [Hlt|[Heq|Hgt]]; [|exact Heq|].
      - rewrite Hfirst in Hko by assumption. discriminate.
      - rewrite Hok in Hfifth by assumption. discriminate. }
    split; [|exact Ha]. rewrite Hc, Hsucc. reflexivity.
Qed.

Lemma counter_counts_successes_witness :
  exists cfg s0,
    main (failing (WriteFile 4) "boom") com7_20_100 = Enter cfg s0
    /\ phase (run (failing (WriteFile 4) "boom") cfg 60 s0) = Exited EXIT_FAILURE
    /\ messages_sent (run (failing (WriteFile 4) "boom") cfg 60 s0) = 4
    /\ attempts (run (failing (WriteFile 4) "boom") cfg 60 s0) = 5%nat.
Proof.
  let r := eval vm_compute in (main (failing (WriteFile 4) "boom") com7_20_100) in
  match r with
  | Enter ?c ?s => exists c, s
  end.
  split; [vm_compute; reflexivity|].
  split; [vm_compute; reflexivity|].
  match goal with
  | |- context [run ?w ?c ?k ?s] =>
      destruct (counter_counts_successes w com7_20_100 c s k) as (_ & _ & _ & _ & H);
        [vm_compute; reflexivity|]
  end.
  apply H.
  - intros i Hi. do 4 (destruct i as [|i]; [reflexivity|]). lia.
  - reflexivity.
  - vm_compute. reflexivity.
Defined.

(** ** The times of the sends *)

Lemma last_sent_at_app_quiet (tr more : list Event) :
  writes more = [] -> last_sent_at (tr ++ more) = last_sent_at tr.
Proof.
  intros H. unfold last_sent_at. now rewrite writes_app, H, app_nil_r.
Qed.

Lemma last_sent_at_write (tr more : list Event) (t v : Z) (m : string) (ok : bool) :
  writes more = [] ->
  last_sent_at (tr ++ Write t v m ok :: more) = Some t.
Proof.
  intros H. unfold last_sent_at. rewrite writes_app. simpl. rewrite H.
  rewrite length_app. simpl.
  replace (pred (List.length (writes tr) + 1)) with (List.length (writes tr)) by lia.
  now rewrite nth_error_app2, Nat.sub_diag by lia.
Qed.

Lemma gaps_snoc (P : Z) (ws : list Sent) (y : Sent) :
  (forall i a b, nth_error ws i = Some a -> nth_error ws (S i) = Some b ->
     sent_at a + P <= sent_at b) ->
  (forall a, nth_error ws (pred (List.length ws)) = Some a ->
     sent_at a + P <= sent_at y) ->
  forall i a b, nth_error (ws ++ [y]) i = Some a ->
    nth_error (ws ++ [y]) (S i) = Some b ->
    sent_at a + P <= sent_at b.
Proof.
  intros Hold Hlast i a b Ha Hb.
  apply nth_error_snoc in Hb. destruct Hb as [Hb|[Hi ->]].
  - assert (S i < List.length ws)%nat as Hlt
      by (apply nth_error_Some; rewrite Hb; discriminate).
    rewrite nth_error_app1 in Ha by lia. eauto.
  - rewrite nth_error_app1 in Ha by lia. apply Hlast.
    now rewrite <- Hi.
Qed.

Section Pacing.

Variables (w : World) (cfg : Config).
Hypothesis clock_steady : steady w.

Lemma paced_entry (n0 : Z) (s : State) : entry n0 s -> paced w cfg s.
Proof.
  intros He. constructor.
  - intros i x y. rewrite (entry_writes _ _ He). destruct i; discriminate.
  - rewrite (entry_phase _ _ He). unfold last_sent_at.
    rewrite (entry_writes _ _ He). discriminate.
Qed.

Lemma paced_step (s : State) : paced w cfg s -> paced w cfg (step w cfg s).
Proof.
  intros [Hg Hp]. destruct (phase s) as [| | |now|code] eqn:Ephase.
  - (* LoopHead *)
    destruct (deliver w s) eqn:Ed.
    + rewrite step_head_stop by assumption. constructor; simpl; [|exact I].
      rewrite writes_app, app_nil_r. exact Hg.
    + rewrite step_head_go by assumption. constructor; simpl; assumption.
  - (* BusyWait *)
    destruct (Z.lt_ge_cases (steady_clock w (instant s) - last_send_time s)
                            (period_ns cfg)) as [Hlt|Hge].
    + rewrite step_wait_yield by assumption. constructor; simpl.
      * rewrite writes_app, app_nil_r. exact Hg.
      * intros t. rewrite last_sent_at_app_quiet by reflexivity. apply Hp.
    + rewrite step_wait_release by assumption. constructor; simpl; [exact Hg|].
      split; [exact Hp|lia].
  - (* TakeNow *)
    rewrite step_take_now by assumption. constructor; simpl; [exact Hg|].
    destruct Hp as [Hlast Hrel]. split; [reflexivity|].
    intros t Ht. rewrite (Hlast t Ht).
    pose proof (clock_steady (pred (instant s)) (instant s)) as Hs. lia.
  - (* Send *)
    destruct Hp as [Hnow Hlast].
    assert (forall a : Sent,
              nth_error (writes (trace s)) (pred (List.length (writes (trace s))))
              = Some a -> sent_at a + period_ns cfg <= now) as Hl.
    { intros a Ha. apply Hlast. unfold last_sent_at. now rewrite Ha. }
    destruct (write_ok w (attempts s)) eqn:Eok.
    + rewrite (step_send_ok w cfg s now) by assumption. constructor; simpl.
      * rewrite writes_app. simpl. rewrite writes_status_print.
        now apply gaps_snoc.
      * intros t. rewrite last_sent_at_write by apply writes_status_print.
        intros [= <-]. now symmetry.
    + destruct (step_send_fail w cfg s now Ephase Eok) as [e ->].
      constructor; simpl; [|exact I].
      rewrite writes_app. simpl. now apply gaps_snoc.
  - (* Exited *)
    unfold step. rewrite Ephase. constructor; [exact Hg|now rewrite Ephase].
Qed.

Lemma paced_run (n0 : Z) (s : State) (k : nat) :
  entry n0 s -> paced w cfg (run w cfg k s).
Proof.
  intros He. induction k as [|k IH]; simpl.
  - now apply (paced_entry n0).
  - now apply paced_step.
Qed.

End Pacing.

(** C6: for a frequency argument [fz] with [0 < fz <= 1000] the period
    is [floor (1000 / fz)] milliseconds, and, the clock being steady,
    the times stamped on two successive sends are at least that period
    apart; whenever the wait has released a send, at least the period
    has passed since the previous one. *)
Theorem sends_are_a_period_apart (w : World) (argv : list string) (cfg : Config)
    (s0 : State) (fz : Z) (k : nat) :
  main w argv = Enter cfg s0 ->
  extract_int (nth 3 argv "") = Some fz ->
  0 < fz <= 1000 ->
  steady w ->
  let s := run w cfg k s0 in
  sleep_time_ms cfg = 1000 / fz
  /\ (forall i x y,
        nth_error (writes (trace s)) i = Some x ->
        nth_error (writes (trace s)) (S i) = Some y ->
        (1000 / fz) * ns_per_ms <= sent_at y - sent_at x)
  /\ (forall now t,
        phase s = Send now -> last_sent_at (trace s) = Some t ->
        (1000 / fz) * ns_per_ms <= now - t).
Proof.
  intros Hm Ef Hf Hsteady s.
  destruct (main_enter _ _ _ _ Hm) as (n0 & f0 & _ & Ef' & _ & _ & Hper & He & _).
  rewrite Ef in Ef'. injection Ef' as <-.
  rewrite Z.quot_div_nonneg in Hper by lia.
  pose proof (paced_run w cfg Hsteady n0 s0 k He) as [Hg Hp]. fold s in Hg, Hp.
  unfold period_ns in *. rewrite Hper in *.
  split; [reflexivity|]. split.
  - intros i x y Hx Hy. specialize (Hg i x y Hx Hy). lia.
  - intros now t Hph Ht. rewrite Hph in Hp. destruct Hp as [_ Hp].
    specialize (Hp t Ht). lia.
Qed.

Lemma sends_are_a_period_apart_witness :
  exists cfg s0,
    main calm com7_20_100 = Enter cfg s0
    /\ sleep_time_ms cfg = 1000 / 100
    /\ (forall i x y,
          nth_error (writes (trace (run calm cfg 40 s0))) i = Some x ->
          nth_error (writes (trace (run calm cfg 40 s0))) (S i) = Some y ->
          (1000 / 100) * ns_per_ms <= sent_at y - sent_at x)
    /\ (forall now t,
          phase (run calm cfg 40 s0) = Send now ->
          last_sent_at (trace (run calm cfg 40 s0)) = Some t ->
          (1000 / 100) * ns_per_ms <= now - t).
Proof.
  let r := eval vm_compute in (main calm com7_20_100) in
  match r with
  | Enter ?c ?s => exists c, s
  end.
  split; [vm_compute; reflexivity|].
  match goal with
  | |- context [run ?w ?c ?k ?s] =>
      apply (sends_are_a_period_apart w com7_20_100 c s 100 k)
  end.
  - vm_compute. reflexivity.
  - reflexivity.
  - lia.
  - intros i j H. simpl. unfold ns_per_ms. lia.
Defined.

(** ** A stop request that arrives during the wait *)

Lemma run_step (w : World) (cfg : Config) (k : nat) (s : State) :
  run w cfg (S k) s = run w cfg k (step w cfg s).
Proof. induction k as [|k IH]; [reflexivity|]. simpl in *. now rewrite IH. Qed.

Lemma run_3 (w : World) (cfg : Config) (s : State) :
  run w cfg 3 s = step w cfg (step w cfg (step w cfg s)).
Proof. reflexivity. Qed.

Lemma run_exited (w : World) (cfg : Config) (k : nat) (s : State) (code : Z) :
  phase s = Exited code -> run w cfg k s = s.
Proof.
  intros H. induction k as [|k IH]; [reflexivity|].
  simpl. rewrite IH. unfold step. now rewrite H.
Qed.

(** [CtrlHandler] never clears the flag. *)
Lemma deliver_sticky (w : World) (s : State) :
  gStopRequested s = true -> deliver w s = true.
Proof.
  intros H. unfold deliver, CtrlHandler.
  destruct (ctrl_event w (instant s)) as [ty|]; [|exact H].
  destruct (_ || _)%bool; [reflexivity|exact H].
Qed.

(** The wait does not look at the flag: it ends when the period has
    passed, and has changed nothing but the instant and the list of
    yields. *)
Lemma wait_ends (w : World) (cfg : Config) (d : nat) (s : State) :
  phase s = BusyWait ->
  gStopRequested s = true ->
  period_ns cfg <= steady_clock w (instant s + d) - last_send_time s ->
  exists j, (j <= d)%nat
    /\ phase (run w cfg (S j) s) = TakeNow
    /\ gStopRequested (run w cfg (S j) s) = true
    /\ n (run w cfg (S j) s) = n s
    /\ messages_sent (run w cfg (S j) s) = messages_sent s
    /\ attempts (run w cfg (S j) s) = attempts s
    /\ writes (trace (run w cfg (S j) s)) = writes (trace s)
    /\ closes (trace (run w cfg (S j) s)) = closes (trace s).
Proof.
  revert s. induction d as [|d IH]; intros s Hp Hs Hd.
  - exists 0%nat. rewrite Nat.add_0_r in Hd.
    simpl. rewrite step_wait_release by assumption. simpl.
    rewrite deliver_sticky by assumption. repeat split. lia.
  - destruct (Z.lt_ge_cases (steady_clock w (instant s) - last_send_time s)
                            (period_ns cfg)) as [Hlt|Hge].
    + destruct (IH (step w cfg s)) as (j & Hj & H).
      * now rewrite step_wait_yield.
      * rewrite step_wait_yield by assumption. simpl. now apply deliver_sticky.
      * rewrite step_wait_yield by assumption.
        cbn [instant last_send_time].
        now replace (S (instant s) + d)%nat with (instant s + S d)%nat by lia.
      * exists (S j). split; [lia|].
        rewrite (run_step w cfg (S j)).
        assert (n (step w cfg s) = n s
                /\ messages_sent (step w cfg s) = messages_sent s
                /\ attempts (step w cfg s) = attempts s
                /\ writes (trace (step w cfg s)) = writes (trace s)
                /\ closes (trace (step w cfg s)) = closes (trace s))
          as (E1 & E2 & E3 & E4 & E5).
        { rewrite step_wait_yield by assumption. simpl.
          rewrite writes_app, closes_app, app_nil_r. simpl.
          repeat split. lia. }
        rewrite E1, E2, E3, E4, E5 in H. exact H.
    + exists 0%nat. simpl. rewrite step_wait_release by assumption. simpl.
      rewrite deliver_sticky by assumption. repeat split. lia.
Qed.

(** C1, as it is stated, fails: Ctrl-C arrives at instant 3, when the
    loop is in its first wait and nothing has been written; the wait
    goes on to its end, the frame of that cycle is written and counted,
    and only then does the loop leave with the success code. *)
Lemma stop_during_wait_still_sends :
  exists cfg s0,
    main (ctrl_c_at 3) com7_20_100 = Enter cfg s0
    /\ phase (run (ctrl_c_at 3) cfg 3 s0) = BusyWait
    /\ gStopRequested (run (ctrl_c_at 3) cfg 2 s0) = false
    /\ gStopRequested (run (ctrl_c_at 3) cfg 3 s0) = true
    /\ writes (trace (run (ctrl_c_at 3) cfg 3 s0)) = []
    /\ phase (run (ctrl_c_at 3) cfg 14 s0) = Exited EXIT_SUCCESS
    /\ writes (trace (run (ctrl_c_at 3) cfg 14 s0))
       = [{| sent_at := 11000000; value := 20; bytes := "#20,20,20,20;";
             succeeded := true |}]
    /\ messages_sent (run (ctrl_c_at 3) cfg 14 s0) = 1.
Proof.
  let r := eval vm_compute in (main (ctrl_c_at 3) com7_20_100) in
  match r with
  | Enter ?c ?s => exists c, s
  end.
  repeat split; vm_compute; reflexivity.
Qed.

(** C1, amended: when the stop flag has become true while the loop
    waits, the loop does not leave at once, since the wait never reads
    the flag.  Once the period has passed, the frame of that cycle is
    handed to [WriteFile] all the same.  If that write succeeds it is
    counted, the loop then leaves at its head, the handle is closed and
    the program ends with the success code; if it fails the program ends
    with the failure code.  Either way that frame is the last one. *)
Theorem stop_during_wait_is_seen_after_the_write (w : World) (cfg : Config)
    (s : State) (d : nat) :
  phase s = BusyWait ->
  gStopRequested s = true ->
  period_ns cfg <= steady_clock w (instant s + d) - last_send_time s ->
  exists fuel now,
    writes (trace (run w cfg fuel s))
    = (writes (trace s)
       ++ [{| sent_at := now; value := n s; bytes := format_frame (n s);
              succeeded := write_ok w (attempts s) |}])%list
    /\ phase (run w cfg fuel s)
       = Exited (if write_ok w (attempts s) then EXIT_SUCCESS else EXIT_FAILURE)
    /\ messages_sent (run w cfg fuel s)
       = (if write_ok w (attempts s)
          then uint_incr (messages_sent s) else messages_sent s)
    /\ closes (trace (run w cfg fuel s)) = S (closes (trace s))
    /\ forall k, run w cfg (k + fuel) s = run w cfg fuel s.
Proof.
  intros Hp Hs Hd.
  destruct (wait_ends w cfg d s Hp Hs Hd)
    as (j & _ & Hp1 & Hs1 & Hn1 & Hc1 & Ha1 & Hw1 & Hcl1).
  remember (run w cfg (S j) s) as s1 eqn:Es1.
  exists (3 + S j)%nat, (steady_clock w (instant s1)).
  assert (forall k, run w cfg (k + (3 + S j)) s
                    = run w cfg k (step w cfg (step w cfg (step w cfg s1))))
    as Hrun by (intros k; now rewrite Es1, !run_add, run_3).
  assert (run w cfg (3 + S j) s = step w cfg (step w cfg (step w cfg s1)))
    as Hfin by now rewrite Es1, run_add, run_3.
  rewrite Hfin.
  assert (phase (step w cfg s1) = Send (steady_clock w (instant s1))
          /\ gStopRequested (step w cfg s1) = true
          /\ n (step w cfg s1) = n s
          /\ messages_sent (step w cfg s1) = messages_sent s
          /\ attempts (step w cfg s1) = attempts s
          /\ writes (trace (step w cfg s1)) = writes (trace s)
          /\ closes (trace (step w cfg s1)) = closes (trace s))
    as (Hp2 & Hs2 & Hn2 & Hc2 & Ha2 & Hw2 & Hcl2).
  { rewrite step_take_now by assumption. cbn [phase gStopRequested n
      messages_sent attempts trace].
    rewrite deliver_sticky by assumption. now repeat split. }
  remember (step w cfg s1) as s2 eqn:Es2.
  destruct (write_ok w (attempts s)) eqn:Eok.
  - assert (phase (step w cfg s2) = LoopHead
            /\ deliver w (step w cfg s2) = true
            /\ messages_sent (step w cfg s2) = uint_incr (messages_sent s)
            /\ writes (trace (step w cfg s2))
               = (writes (trace s)
                  ++ [{| sent_at := steady_clock w (instant s1); value := n s;
                         bytes := format_frame (n s); succeeded := true |}])%list
            /\ closes (trace (step w cfg s2)) = closes (trace s))
      as (Hp3 & Hs3 & Hc3 & Hw3 & Hcl3).
    { rewrite (step_send_ok w cfg s2 _ Hp2) by now rewrite Ha2.
      split; [reflexivity|]. split.
      - apply deliver_sticky. cbn [gStopRequested]. now apply deliver_sticky.
      - cbn [messages_sent trace].
        rewrite writes_app, closes_app. simpl.
        rewrite writes_status_print, closes_status_print, Hc2, Hn2, Hw2, Hcl2.
        repeat split. lia. }
    remember (step w cfg s2) as s3 eqn:Es3.
    assert (step w cfg s3
            = {| phase := Exited EXIT_SUCCESS; gStopRequested := true;
                 n := n s3; messages_sent := messages_sent s3;
                 last_send_time := last_send_time s3;
                 last_print_time := last_print_time s3;
                 instant := S (instant s3); attempts := attempts s3;
                 trace := trace s3
                          ++ [Print cout (LF ++ "Got ctrl+c, exiting..." ++ LF);
                              Close] |}) as E4
      by now apply step_head_stop.
    rewrite E4. cbn [phase messages_sent trace].
    split; [now rewrite writes_app, app_nil_r, Hw3|].
    split; [reflexivity|]. split; [exact Hc3|].
    split; [rewrite closes_app, Hcl3; simpl; lia|].
    intros k. rewrite Hrun, E4.
    now apply (run_exited w cfg k _ EXIT_SUCCESS).
  - destruct (step_send_fail w cfg s2 _ Hp2) as [e E3]; [now rewrite Ha2|].
    assert (step w cfg (step w cfg s2) = step w cfg s2) as E4
      by (unfold step at 1; now rewrite E3).
    rewrite E4, E3. cbn [phase messages_sent trace].
    split; [now rewrite writes_app, Hw2, Hn2|].
    split; [reflexivity|]. split; [exact Hc2|].
    split; [rewrite closes_app, Hcl2; simpl; lia|].
    intros k. rewrite Hrun, E4, E3.
    now apply (run_exited w cfg k _ EXIT_FAILURE).
Qed.

Lemma stop_during_wait_is_seen_after_the_write_witness :
  exists cfg s0 fuel now,
    main (ctrl_c_at 3) com7_20_100 = Enter cfg s0
    /\ writes (trace (run (ctrl_c_at 3) cfg fuel (run (ctrl_c_at 3) cfg 3 s0)))
       = [{| sent_at := now; value := 20; bytes := "#20,20,20,20;";
             succeeded := true |}]
    /\ phase (run (ctrl_c_at 3) cfg fuel (run (ctrl_c_at 3) cfg 3 s0))
       = Exited EXIT_SUCCESS.
Proof.
  let r := eval vm_compute in (main (ctrl_c_at 3) com7_20_100) in
  match r with
  | Enter ?c ?s =>
      exists c, s;
      destruct (stop_during_wait_is_seen_after_the_write (ctrl_c_at 3) c
                  (run (ctrl_c_at 3) c 3 s) 7)
        as (fuel & now & Hw & Hp & _)
  end.
  - reflexivity.
  - reflexivity.
  - vm_compute. discriminate.
  - exists fuel, now. split; [vm_compute; reflexivity|].
    split; [exact Hw|exact Hp].
Defined.

(** ** The handle of the port *)

Lemma opens_app (a b : list Event) : opens (a ++ b) = (opens a + opens b)%nat.
Proof.
  induction a as [|e a IH]; [reflexivity|].
  destruct e; simpl; rewrite IH; reflexivity.
Qed.

Lemma opens_status_print (now : Z) (s : State) (c : Z) :
  opens (status_print now s c) = 0%nat.
Proof. unfold status_print. destruct (status_due now s); reflexivity. Qed.

(** The loop never opens a port, and closes the handle when it leaves,
    not before. *)
Lemma step_handle (w : World) (cfg : Config) (s : State) :
  opens (trace (step w cfg s)) = opens (trace s)
  /\ closes (trace (step w cfg s))
     = match phase s, phase (step w cfg s) with
       | Exited _, _ => closes (trace s)
       | _, Exited _ => S (closes (trace s))
       | _, _ => closes (trace s)
       end.
Proof.
  unfold step. destruct (phase s) eqn:E; simpl.
  - destruct (deliver w s); simpl; rewrite ?opens_app, ?closes_app; simpl;
      split; lia.
  - destruct (_ <? _)%Z; simpl; rewrite ?opens_app, ?closes_app; simpl;
      split; lia.
  - split; reflexivity.
  - destruct (os_error w (WriteFile (attempts s))); simpl;
      rewrite opens_app, closes_app; simpl;
      rewrite ?opens_status_print, ?closes_status_print; split; lia.
  - split; reflexivity.
Qed.

Lemma run_handle (w : World) (cfg : Config) (s : State) (k : nat) :
  phase s = LoopHead ->
  opens (trace (run w cfg k s)) = opens (trace s)
  /\ closes (trace (run w cfg k s))
     = match phase (run w cfg k s) with
       | Exited _ => S (closes (trace s))
       | _ => closes (trace s)
       end.
Proof.
  intros Hp. induction k as [|k [IHo IHc]]; simpl.
  - now rewrite Hp.
  - destruct (step_handle w cfg (run w cfg k s)) as [Ho Hc].
    split; [now rewrite Ho|]. rewrite Hc, IHc.
    destruct (phase (run w cfg k s)) eqn:E;
      try (destruct (phase (step w cfg (run w cfg k s))); reflexivity).
    unfold step. now rewrite E, E.
Qed.

(** Where the program ends from inside the loop (stop request or failed
    write), one port was opened and its handle was closed once. *)
Lemma loop_exit_closes_once (w : World) (argv : list string) (cfg : Config)
    (s0 : State) (k : nat) (code : Z) :
  main w argv = Enter cfg s0 ->
  phase (run w cfg k s0) = Exited code ->
  opens (trace (run w cfg k s0)) = 1%nat
  /\ closes (trace (run w cfg k s0)) = 1%nat.
Proof.
  intros Hm Hp.
  destruct (main_enter _ _ _ _ Hm) as (n0 & f0 & _ & _ & _ & _ & _ & He & Hc & _).
  destruct (run_handle w cfg s0 k (entry_phase _ _ He)) as [Ho Hcl].
  rewrite Hp, Hc in Hcl. split; [|exact Hcl]. rewrite Ho.
  revert Hm. unfold main. destruct (_ <? 4)%Z; [discriminate|].
  destruct (extract_int (nth 2 argv "")); [|discriminate].
  destruct (extract_int (nth 3 argv "")); [|discriminate].
  destruct (_ >? 1000)%Z; [discriminate|].
  destruct (int_div 1000 _); [|discriminate].
  destruct (os_error w CreateFile); [discriminate|].
  destruct (os_error w SetConsoleCtrlHandler); [discriminate|].
  destruct (os_error w SetCommTimeouts); [discriminate|].
  intros [= _ <-]. simpl. now destruct (os_error w GetCommState).
Qed.

(** Where [main] returns before the loop and the handler was registered,
    the handle is closed as often as a port was opened. *)
Lemma startup_exit_closes (w : World) (argv : list string) (code : Z)
    (tr : list Event) :
  main w argv = Return code tr ->
  os_error w SetConsoleCtrlHandler = None ->
  closes tr = opens tr.
Proof.
  unfold main. intros Hm Hh. revert Hm.
  destruct (_ <? 4)%Z; [now intros [= _ <-]|].
  destruct (extract_int (nth 2 argv "")); [|now intros [= _ <-]].
  destruct (extract_int (nth 3 argv "")); [|now intros [= _ <-]].
  destruct (_ >? 1000)%Z; [now intros [= _ <-]|].
  destruct (int_div 1000 _); [|discriminate].
  destruct (os_error w CreateFile); [now intros [= _ <-]|].
  rewrite Hh.
  destruct (os_error w SetCommTimeouts); [|discriminate].
  intros [= _ <-]. now destruct (os_error w GetCommState).
Qed.

(** C7, where [SetConsoleCtrlHandler] fails: [main] returns the failure
    code with the port opened and [CloseHandle] never called. *)
Theorem handler_failure_leaves_handle_open (fuel : nat) :
  exists tr,
    program (failing SetConsoleCtrlHandler "Access is denied.") com7_20_100 fuel
    = Finished EXIT_FAILURE tr
    /\ tr = [Print cout ("Starting excserial program..." ++ LF);
             Open "COM7";
             Print cerr ("Failed to set control handler: Access is denied." ++ LF)]
    /\ opens tr = 1%nat
    /\ closes tr = 0%nat.
Proof. eexists. repeat split. Qed.

(** C8, where [GetCommState] fails: the error is printed and [main]
    goes on, reports the port as configured, enters the loop and
    sends. *)
Theorem get_comm_state_failure_is_not_fatal :
  exists cfg s0,
    main (failing GetCommState "Access is denied.") com7_20_100 = Enter cfg s0
    /\ printed cerr (trace s0)
       = ["GetCommState filed with error Access is denied." ++ LF]
    /\ In (Print cout ("Serial port successfully configured!" ++ LF)) (trace s0)
    /\ phase s0 = LoopHead
    /\ map bytes (writes (trace
         (run (failing GetCommState "Access is denied.") cfg 12 s0)))
       = ["#20,20,20,20;"]
    /\ exit_code (run (failing GetCommState "Access is denied.") cfg 12 s0) = None.
Proof.
  let r := eval vm_compute in
    (main (failing GetCommState "Access is denied.") com7_20_100) in
  match r with
  | Enter ?c ?s => exists c, s
  end.
  split; [vm_compute; reflexivity|].
  split; [vm_compute; reflexivity|].
  split; [vm_compute; tauto|].
  repeat split; vm_compute; reflexivity.
Qed.

(** ** The arguments *)

Lemma magnitude_diagnostic (w : World) (argv : list string) :
  (4 <= List.length argv)%nat ->
  extract_int (nth 2 argv "") = None ->
  main w argv
  = Return EXIT_FAILURE
      [Print cout ("Starting excserial program..." ++ LF);
       Print cerr (cant_convert (nth 2 argv ""))].
Proof.
  intros Hl Hn. unfold main.
  destruct (Z.ltb_spec (Z.of_nat (List.length argv)) 4) as [|_]; [lia|].
  now rewrite Hn.
Qed.

(** Whatever text fails to parse as the frequency, the diagnostic shows
    the magnitude argument. *)
Lemma frequency_diagnostic (w : World) (argv : list string) (m : Z) :
  (4 <= List.length argv)%nat ->
  extract_int (nth 2 argv "") = Some m ->
  extract_int (nth 3 argv "") = None ->
  main w argv
  = Return EXIT_FAILURE
      [Print cout ("Starting excserial program..." ++ LF);
       Print cerr (cant_convert (nth 2 argv ""))].
Proof.
  intros Hl Hn Hf. unfold main.
  destruct (Z.ltb_spec (Z.of_nat (List.length argv)) 4) as [|_]; [lia|].
  now rewrite Hn, Hf.
Qed.

(** C9, at the frequency argument [abc]: the diagnostic reads
    [Can't convert arg 20 to number!], echoing the magnitude argument
    [20] that did parse and not the frequency argument that did not. *)
Theorem frequency_error_echoes_magnitude (w : World) (fuel : nat) :
  extract_int "20" = Some 20
  /\ extract_int "abc" = None
  /\ program w ["excserial"; "COM7"; "20"; "abc"] fuel
     = Finished EXIT_FAILURE
         [Print cout ("Starting excserial program..." ++ LF);
          Print cerr ("Can't convert arg 20 to number!" ++ LF)].
Proof. repeat split. Qed.

(** C10: the frequency argument [0] is read as the integer 0 and is not
    greater than 1000, so it passes the two checks of [main]; the
    period is then computed as [1000 / 0], before any port is opened.
    The same holds of every argument that reads as 0. *)
Theorem zero_frequency_divides_by_zero (w : World) (argv : list string)
    (m : Z) (fuel : nat) :
  (4 <= List.length argv)%nat ->
  extract_int (nth 2 argv "") = Some m ->
  extract_int (nth 3 argv "") = Some 0 ->
  extract_int "0" = Some 0
  /\ (0 >? 1000)%Z = false
  /\ int_div 1000 0 = None
  /\ main w argv = DivideByZero [Print cout ("Starting excserial program..." ++ LF)]
  /\ program w argv fuel
     = Crashed [Print cout ("Starting excserial program..." ++ LF)].
Proof.
  intros Hl Hn Hf.
  assert (main w argv
          = DivideByZero [Print cout ("Starting excserial program..." ++ LF)]) as E.
  { unfold main.
    destruct (Z.ltb_spec (Z.of_nat (List.length argv)) 4) as [|_]; [lia|].
    now rewrite Hn, Hf. }
  repeat split; [exact E|]. unfold program. now rewrite E.
Qed.

Lemma zero_frequency_divides_by_zero_witness :
  extract_int "0" = Some 0
  /\ (0 >? 1000)%Z = false
  /\ int_div 1000 0 = None
  /\ main calm ["excserial"; "COM7"; "20"; "0"]
     = DivideByZero [Print cout ("Starting excserial program..." ++ LF)]
  /\ program calm ["excserial"; "COM7"; "20"; "0"] 10
     = Crashed [Print cout ("Starting excserial program..." ++ LF)].
Proof.
  apply (zero_frequency_divides_by_zero calm ["excserial"; "COM7"; "20"; "0"] 20 10).
  - simpl. lia.
  - reflexivity.
  - reflexivity.
Defined.

(** A negative frequency passes the checks as well: the period is then
    negative or zero and the loop never waits. *)
Lemma negative_frequency_is_accepted (w : World) (argv : list string)
    (m fz : Z) :
  (4 <= List.length argv)%nat ->
  extract_int (nth 2 argv "") = Some m ->
  extract_int (nth 3 argv "") = Some fz ->
  fz < 0 ->
  (forall c, os_error w c = None) ->
  exists cfg s0,
    main w argv = Enter cfg s0
    /\ sleep_time_ms cfg = Z.quot 1000 fz
    /\ sleep_time_ms cfg <= 0.
Proof.
  intros Hl Hn Hf Hneg Hos. unfold main.
  destruct (Z.ltb_spec (Z.of_nat (List.length argv)) 4) as [|_]; [lia|].
  rewrite Hn, Hf.
  destruct (Z.gtb_spec fz 1000) as [|_]; [lia|].
  rewrite int_div_1000 by (eauto using extract_int_in_int || lia).
  rewrite !Hos. eexists. eexists. split; [reflexivity|]. simpl.
  split; [reflexivity|].
  rewrite <- (Z.opp_involutive fz), Z.quot_opp_r by lia.
  pose proof (Z.quot_pos 1000 (- fz)). lia.
Qed.

(** * More of [main.cpp] *)

(** ** The stop flag *)

Lemma CtrlHandler_handled (ty : Z) (stop : bool) :
  fst (CtrlHandler ty stop) = true <-> stop = true \/ In ty handled.
Proof.
  unfold CtrlHandler, handled, CTRL_C_EVENT, CTRL_BREAK_EVENT, CTRL_CLOSE_EVENT,
    CTRL_LOGOFF_EVENT, CTRL_SHUTDOWN_EVENT. simpl.
  destruct (Z.eqb_spec ty 0); [simpl; intuition lia|].
  destruct (Z.eqb_spec ty 1); [simpl; intuition lia|].
  destruct (Z.eqb_spec ty 2); [simpl; intuition lia|].
  destruct (Z.eqb_spec ty 5); [simpl; intuition lia|].
  destruct (Z.eqb_spec ty 6); [simpl; intuition lia|].
  simpl. intuition lia.
Qed.

Lemma step_stop (w : World) (cfg : Config) (s : State) :
  gStopRequested (step w cfg s)
  = match phase s with
    | Exited _ => gStopRequested s
    | _ => deliver w s
    end.
Proof.
  unfold step. destruct (phase s) eqn:E; try reflexivity.
  - now destruct (deliver w s).
  - now destruct (_ <? _)%Z.
  - now destruct (os_error w (WriteFile (attempts s))).
Qed.

Lemma step_instant (w : World) (cfg : Config) (s : State) :
  instant (step w cfg s)
  = match phase s with
    | Exited _ => instant s
    | _ => S (instant s)
    end.
Proof.
  unfold step. destruct (phase s) eqn:E; try reflexivity.
  - now destruct (deliver w s).
  - now destruct (_ <? _)%Z.
  - now destruct (os_error w (WriteFile (attempts s))).
Qed.

Lemma run_stop_sticky (w : World) (cfg : Config) (s : State) (k : nat) :
  gStopRequested s = true -> gStopRequested (run w cfg k s) = true.
Proof.
  intros H. induction k as [|k IH]; [exact H|].
  simpl. rewrite step_stop.
  destruct (phase (run w cfg k s)); auto using deliver_sticky.
Qed.

(** The flag has no way back: [CtrlHandler] only ever sets it, so once
    [gStopRequested] is true it is true in every later state, whatever
    control events still arrive. *)
Theorem stop_flag_is_never_cleared (w : World) (cfg : Config) (s : State)
    (k : nat) (ty : Z) :
  gStopRequested s = true ->
  fst (CtrlHandler ty (gStopRequested s)) = true
  /\ gStopRequested (run w cfg k s) = true.
Proof.
  intros H. split; [|now apply run_stop_sticky].
  apply CtrlHandler_handled. now left.
Qed.

Lemma stop_flag_is_never_cleared_witness :
  gStopRequested
    (run (ctrl_c_at 3) {| comport := "COM7"; f := 100; sleep_time_ms := 10 |} 9
       {| phase := BusyWait; gStopRequested := true; n := 20; messages_sent := 0;
          last_send_time := 0; last_print_time := 0; instant := 4; attempts := 0;
          trace := [] |}) = true.
Proof. apply (stop_flag_is_never_cleared _ _ _ _ 3). reflexivity. Defined.

Lemma step_writes_attempts (w : World) (cfg : Config) (s : State) :
  (List.length (writes (trace (step w cfg s))) + attempts s
   = List.length (writes (trace s)) + attempts (step w cfg s))%nat.
Proof.
  unfold step. destruct (phase s) eqn:E; simpl; try reflexivity.
  - destruct (deliver w s); simpl; rewrite ?writes_app, ?length_app; simpl; lia.
  - destruct (_ <? _)%Z; simpl; rewrite ?writes_app, ?length_app; simpl; lia.
  - destruct (os_error w (WriteFile (attempts s))); simpl;
      rewrite writes_app, length_app; simpl;
      rewrite ?writes_status_print; simpl; lia.
Qed.

Lemma run_writes_attempts (w : World) (cfg : Config) (s : State) (k : nat) :
  (List.length (writes (trace (run w cfg k s))) + attempts s
   = List.length (writes (trace s)) + attempts (run w cfg k s))%nat.
Proof.
  induction k as [|k IH]; [reflexivity|]. simpl.
  pose proof (step_writes_attempts w cfg (run w cfg k s)). lia.
Qed.

Lemma stopped_step (w : World) (cfg : Config) (s : State) (base : nat) :
  gStopRequested s = true ->
  attempts s = base
  \/ (attempts s = S base
      /\ (phase s = LoopHead \/ exists code, phase s = Exited code)) ->
  attempts (step w cfg s) = base
  \/ (attempts (step w cfg s) = S base
      /\ (phase (step w cfg s) = LoopHead
          \/ exists code, phase (step w cfg s) = Exited code)).
Proof.
  intros Hs H. pose proof (deliver_sticky w s Hs) as Hd. unfold step.
  destruct (phase s) eqn:E.
  - rewrite Hd. simpl. destruct H as [H|[H _]]; [now left|].
    right. split; [exact H|]. right. now eexists.
  - destruct H as [H|[_ [H|[c H]]]]; try discriminate.
    destruct (_ <? _)%Z; now left.
  - destruct H as [H|[_ [H|[c H]]]]; try discriminate. now left.
  - destruct H as [H|[_ [H|[c H]]]]; try discriminate.
    destruct (os_error w (WriteFile (attempts s))); simpl; right;
      (split; [now rewrite H|]); [right; now eexists|now left].
  - rewrite E. destruct H as [H|[H _]]; [now left|].
    right. split; [exact H|]. right. now eexists.
Qed.

(** Once the program has found the flag set, at most one more frame is
    handed to [WriteFile], whatever the clock and the port do; at the
    head of the loop none is: the loop leaves in the next instant with
    the success code. *)
Theorem stop_allows_one_more_frame_at_most (w : World) (cfg : Config)
    (s : State) (k : nat) :
  gStopRequested s = true ->
  (List.length (writes (trace (run w cfg k s)))
   <= S (List.length (writes (trace s))))%nat
  /\ (phase s = LoopHead ->
      writes (trace (run w cfg (S k) s)) = writes (trace s)
      /\ phase (run w cfg (S k) s) = Exited EXIT_SUCCESS).
Proof.
  intros Hs. split.
  - assert (attempts (run w cfg k s) = attempts s
            \/ (attempts (run w cfg k s) = S (attempts s)
                /\ (phase (run w cfg k s) = LoopHead
                    \/ exists code, phase (run w cfg k s) = Exited code))) as H.
    { induction k as [|k IH]; [now left|]. simpl.
      apply stopped_step; [|exact IH].
      now apply run_stop_sticky. }
    pose proof (run_writes_attempts w cfg s k). lia.
  - intros Hp. rewrite run_step.
    rewrite (step_head_stop w cfg s Hp (deliver_sticky w s Hs)).
    rewrite (run_exited w cfg k _ EXIT_SUCCESS) by reflexivity.
    simpl. now rewrite writes_app, app_nil_r.
Qed.

Lemma stop_allows_one_more_frame_at_most_witness :
  (List.length (writes (trace
     (run (ctrl_c_at 3) {| comport := "COM7"; f := 100; sleep_time_ms := 10 |} 30
        {| phase := BusyWait; gStopRequested := true; n := 20;
           messages_sent := 0; last_send_time := 0; last_print_time := 0;
           instant := 4; attempts := 0; trace := [] |}))) <= 1)%nat.
Proof.
  apply (stop_allows_one_more_frame_at_most (ctrl_c_at 3)
           {| comport := "COM7"; f := 100; sleep_time_ms := 10 |}
           {| phase := BusyWait; gStopRequested := true; n := 20;
              messages_sent := 0; last_send_time := 0; last_print_time := 0;
              instant := 4; attempts := 0; trace := [] |} 30).
  reflexivity.
Defined.

(** ** How the program ends *)

Lemma flag_has_a_cause (w : World) (cfg : Config) (s0 : State) (k : nat) :
  gStopRequested s0 = false ->
  gStopRequested (run w cfg k s0) = true ->
  exists i ty, (instant s0 <= i < instant (run w cfg k s0))%nat
               /\ ctrl_event w i = Some ty /\ In ty handled.
Proof.
  intros H0. induction k as [|k IH]; simpl.
  - intros H. rewrite H in H0. discriminate.
  - assert (instant s0 <= instant (run w cfg k s0))%nat as Hmono.
    { clear. induction k as [|k IH]; [reflexivity|]. simpl.
      rewrite step_instant. destruct (phase (run w cfg k s0)); lia. }
    rewrite step_stop, step_instant.
    destruct (gStopRequested (run w cfg k s0)) eqn:Ek.
    + intros _. destruct (IH eq_refl) as (i & ty & Hi & He & Hh).
      exists i, ty. repeat split; try assumption; try lia.
      destruct (phase (run w cfg k s0)); lia.
    + destruct (phase (run w cfg k s0)) eqn:Ep; try (intros H; discriminate);
        unfold deliver; rewrite Ek;
        (destruct (ctrl_event w (instant (run w cfg k s0))) as [ty|] eqn:Ee;
         [|intros H; discriminate]);
        intros H; apply CtrlHandler_handled in H;
        (destruct H as [H|H]; [discriminate|]);
        exists (instant (run w cfg k s0)), ty; repeat split; auto; lia.
Qed.

Lemma success_exit_was_requested (w : World) (cfg : Config) (s0 : State)
    (k : nat) :
  phase s0 = LoopHead ->
  phase (run w cfg k s0) = Exited EXIT_SUCCESS ->
  gStopRequested (run w cfg k s0) = true.
Proof.
  intros H0. induction k as [|k IH]; simpl.
  - rewrite H0. discriminate.
  - destruct (phase (run w cfg k s0)) eqn:Ep.
    + destruct (deliver w (run w cfg k s0)) eqn:Ed.
      * now rewrite step_head_stop.
      * rewrite step_head_go by assumption. discriminate.
    + unfold step. rewrite Ep. destruct (_ <? _)%Z; discriminate.
    + rewrite step_take_now by assumption. discriminate.
    + unfold step. rewrite Ep.
      destruct (os_error w (WriteFile (attempts (run w cfg k s0)))); discriminate.
    + unfold step. rewrite Ep. cbv iota. rewrite Ep. exact IH.
Qed.

Lemma loop_exit_cause (w : World) (argv : list string)
    (cfg : Config) (s0 : State) (k : nat) (code : Z) :
  main w argv = Enter cfg s0 ->
  phase (run w cfg k s0) = Exited code ->
  (code = EXIT_SUCCESS
   /\ exists i ty, (1 <= i < instant (run w cfg k s0))%nat
                   /\ ctrl_event w i = Some ty /\ In ty handled)
  \/ (code = EXIT_FAILURE
      /\ exists a, attempts (run w cfg k s0) = S a /\ write_ok w a = false).
Proof.
  intros Hm Hp.
  destruct (main_enter _ _ _ _ Hm) as (n0 & f0 & _ & _ & _ & _ & _ & He & _ & Hi & _).
  pose proof (inv_phase _ _ _ (invariant_run w cfg n0 s0 k He)) as Hph.
  rewrite Hp in Hph. destruct Hph as [(-> & _)|(-> & a & Ha & _ & Hko & _)].
  - left. split; [reflexivity|]. rewrite <- Hi.
    apply flag_has_a_cause; [apply He|].
    apply success_exit_was_requested; [apply He|exact Hp].
  - right. split; [reflexivity|]. now exists a.
Qed.

(** The loop has two ways out and no other.  It leaves with the success
    code only when a control event that [CtrlHandler] handles has
    arrived during the loop, and with the failure code only when a call
    of [WriteFile] has failed: there is no count of iterations and no
    time limit that ends it. *)
Theorem loop_leaves_by_stop_or_failed_write (w : World) (argv : list string)
    (cfg : Config) (s0 : State) (k : nat) (code : Z) :
  main w argv = Enter cfg s0 ->
  phase (run w cfg k s0) = Exited code ->
  (code = EXIT_SUCCESS
   /\ exists i ty, (1 <= i < instant (run w cfg k s0))%nat
                   /\ ctrl_event w i = Some ty /\ In ty handled)
  \/ (code = EXIT_FAILURE
      /\ exists a, attempts (run w cfg k s0) = S a /\ write_ok w a = false).
Proof. apply loop_exit_cause. Qed.

Lemma loop_leaves_by_stop_or_failed_write_witness :
  exists cfg s0,
    main (failing (WriteFile 1) "boom") com7_20_100 = Enter cfg s0
    /\ ((EXIT_FAILURE = EXIT_SUCCESS
         /\ exists i ty,
              (1 <= i < instant (run (failing (WriteFile 1) "boom") cfg 40 s0))%nat
              /\ ctrl_event (failing (WriteFile 1) "boom") i = Some ty
              /\ In ty handled)
        \/ (EXIT_FAILURE = EXIT_FAILURE
            /\ exists a,
                 attempts (run (failing (WriteFile 1) "boom") cfg 40 s0) = S a
                 /\ write_ok (failing (WriteFile 1) "boom") a = false)).
Proof.
  let r := eval vm_compute in (main (failing (WriteFile 1) "boom") com7_20_100) in
  match r with
  | Enter ?c ?s => exists c, s
  end.
  split; [vm_compute; reflexivity|].
  match goal with
  | |- context [run ?w ?c ?k ?s] =>
      apply (loop_leaves_by_stop_or_failed_write w com7_20_100 c s k)
  end.
  - vm_compute. reflexivity.
  - vm_compute. reflexivity.
Defined.

(** With no handled control event and no failing write the loop goes on
    for ever: it is at no instant past its end. *)
Theorem undisturbed_loop_never_ends (w : World) (argv : list string)
    (cfg : Config) (s0 : State) (k : nat) :
  main w argv = Enter cfg s0 ->
  undisturbed w ->
  (forall a, write_ok w a = true) ->
  exit_code (run w cfg k s0) = None.
Proof.
  intros Hm Hq Hok. unfold exit_code.
  destruct (phase (run w cfg k s0)) eqn:Hp; try reflexivity.
  destruct (loop_exit_cause w argv cfg s0 k code Hm Hp)
    as [(_ & i & ty & _ & He & Hh)|(_ & a & _ & Ha)].
  - destruct (Hq i ty He Hh).
  - rewrite Hok in Ha. discriminate.
Qed.

Lemma undisturbed_loop_never_ends_witness :
  exists cfg s0,
    main calm com7_20_100 = Enter cfg s0
    /\ exit_code (run calm cfg 500 s0) = None.
Proof.
  let r := eval vm_compute in (main calm com7_20_100) in
  match r with
  | Enter ?c ?s => exists c, s
  end.
  split; [vm_compute; reflexivity|].
  apply (undisturbed_loop_never_ends calm com7_20_100).
  - vm_compute. reflexivity.
  - intros i ty H. discriminate.
  - reflexivity.
Defined.

(** ** The handle, in every outcome *)

Lemma main_handle (w : World) (argv : list string) :
  match main w argv with
  | Return _ tr | DivideByZero tr =>
      (closes tr <= opens tr <= 1)%nat
      /\ forall port, In (Open port) tr -> port = nth 1 argv ""
  | Enter _ s0 =>
      opens (trace s0) = 1%nat /\ closes (trace s0) = 0%nat
      /\ phase s0 = LoopHead
      /\ forall port, In (Open port) (trace s0) -> port = nth 1 argv ""
  end.
Proof.
  unfold main.
  destruct (_ <? 4)%Z;
    [simpl; split; [lia|intros p [H|[]]; discriminate]|].
  destruct (extract_int (nth 2 argv ""));
    [|simpl; split; [lia|intros p [H|[H|[]]]; discriminate]].
  destruct (extract_int (nth 3 argv ""));
    [|simpl; split; [lia|intros p [H|[H|[]]]; discriminate]].
  destruct (_ >? 1000)%Z;
    [simpl; split; [lia|intros p [H|[H|[]]]; discriminate]|].
  destruct (int_div 1000 _);
    [|simpl; split; [lia|intros p [H|[]]; discriminate]].
  destruct (os_error w CreateFile);
    [simpl; split; [lia|intros p [H|[H|[]]]; discriminate]|].
  destruct (os_error w SetConsoleCtrlHandler);
    [simpl; split; [lia|intros p [H|[H|[H|[]]]]; congruence]|].
  destruct (os_error w SetCommTimeouts); destruct (os_error w GetCommState);
    simpl; repeat split; try lia;
    intros p H; repeat (destruct H as [H|H]; try congruence); destruct H.
Qed.

Lemma step_opens_nothing (w : World) (cfg : Config) (s : State) (port : string) :
  In (Open port) (trace (step w cfg s)) -> In (Open port) (trace s).
Proof.
  unfold step, status_print.
  destruct (phase s); simpl; auto.
  - destruct (deliver w s); simpl; auto.
    intros H. apply in_app_or in H. destruct H as [H|[H|[H|[]]]];
      auto; discriminate.
  - destruct (_ <? _)%Z; simpl; auto.
    intros H. apply in_app_or in H. destruct H as [H|[H|[]]]; auto; discriminate.
  - destruct (os_error w (WriteFile (attempts s))); simpl;
      intros H; apply in_app_or in H; destruct H as [H|H]; auto.
    + destruct H as [H|[H|[H|[]]]]; discriminate.
    + destruct (status_due now s); simpl in H;
        repeat (destruct H as [H|H]; try discriminate); destruct H.
Qed.

(** In every outcome of the program, finished or not, at most one port
    has been opened, it is the one named by the first argument, and
    [CloseHandle] has been called at most as often as a port was opened:
    no handle is closed twice and none that was not opened. *)
Theorem at_most_one_port_and_no_double_close (w : World) (argv : list string)
    (fuel : nat) :
  (closes (trace_of (program w argv fuel))
   <= opens (trace_of (program w argv fuel)) <= 1)%nat
  /\ forall port, In (Open port) (trace_of (program w argv fuel)) ->
                  port = nth 1 argv "".
Proof.
  unfold program. pose proof (main_handle w argv) as H.
  destruct (main w argv) as [code tr|tr|cfg s0]; try exact H.
  destruct H as (Ho & Hc & Hp & Hport).
  assert (trace_of match phase (run w cfg fuel s0) with
                   | Exited code => Finished code (trace (run w cfg fuel s0))
                   | _ => Running (run w cfg fuel s0)
                   end = trace (run w cfg fuel s0)) as ->
    by now destruct (phase (run w cfg fuel s0)).
  destruct (run_handle w cfg s0 fuel Hp) as [Ho' Hc']. split.
  - rewrite Ho', Hc', Ho, Hc. destruct (phase (run w cfg fuel s0)); lia.
  - intros port Hin. apply Hport. clear - Hin.
    induction fuel as [|k IH]; [exact Hin|].
    apply IH. simpl in Hin. now apply step_opens_nothing in Hin.
Qed.

(** ** Arguments that are turned down *)

(** When fewer than three arguments are given, or the magnitude or the
    frequency does not read as an [int], or the frequency is above 1000,
    the program ends at once, whatever the system would answer: with the
    success code and the usage text in the first case, with the failure
    code otherwise; no port is opened and nothing is written. *)
Theorem rejected_arguments_touch_no_port (w : World) (argv : list string)
    (fuel : nat) :
  (List.length argv < 4)%nat
  \/ extract_int (nth 2 argv "") = None
  \/ extract_int (nth 3 argv "") = None
  \/ (exists fz, extract_int (nth 3 argv "") = Some fz /\ 1000 < fz) ->
  exists tr,
    program w argv fuel
    = Finished (if (List.length argv <? 4)%nat then EXIT_SUCCESS else EXIT_FAILURE) tr
    /\ ((List.length argv < 4)%nat -> tr = [Print cout usage])
    /\ opens tr = 0%nat /\ closes tr = 0%nat /\ writes tr = []
    /\ program calm argv 0 = program w argv fuel.
Proof.
  intros H. unfold program, main.
  destruct (Nat.ltb_spec (List.length argv) 4) as [Hl|Hl].
  - destruct (Z.ltb_spec (Z.of_nat (List.length argv)) 4) as [_|]; [|lia].
    eexists. repeat split.
  - destruct (Z.ltb_spec (Z.of_nat (List.length argv)) 4) as [|_]; [lia|].
    destruct H as [H|H]; [lia|].
    destruct (extract_int (nth 2 argv "")) as [m|];
      [|eexists; repeat split; lia].
    destruct H as [H|H]; [discriminate|].
    destruct (extract_int (nth 3 argv "")) as [fz|];
      [|eexists; repeat split; lia].
    destruct H as [H|(fz' & [= <-] & Hf)]; [discriminate|].
    destruct (Z.gtb_spec fz 1000) as [_|]; [|lia].
    eexists. repeat split; lia.
Qed.

Lemma rejected_arguments_touch_no_port_witness :
  exists tr,
    program (failing CreateFile "busy") ["excserial"; "COM7"; "20"; "1001"] 5
    = Finished EXIT_FAILURE tr
    /\ opens tr = 0%nat /\ closes tr = 0%nat /\ writes tr = [].
Proof.
  destruct (rejected_arguments_touch_no_port (failing CreateFile "busy")
              ["excserial"; "COM7"; "20"; "1001"] 5)
    as (tr & H & _ & Ho & Hc & Hw & _).
  - right. right. right. exists 1001. split; [reflexivity|lia].
  - exists tr. repeat split; assumption.
Defined.

(** ** What is printed when the program ends *)





(** ** [error_string] *)

Lemma pop_back_newlines_spec (r : list ascii) :
  exists popped,
    r = (popped ++ pop_back_newlines r)%list
    /\ forallb is_cr_or_lf popped = true
    /\ match pop_back_newlines r with
       | c :: _ => is_cr_or_lf c = false
       | [] => True
       end.
Proof.
  induction r as [|c r (popped & Hr & Hall & Hhd)]; simpl.
  - now exists [].
  - destruct (is_cr_or_lf c) eqn:Ec.
    + exists (c :: popped). simpl. rewrite Ec, Hall, <- Hr. auto.
    + exists []. simpl. auto.
Qed.

Lemma string_of_list_ascii_app (a b : list ascii) :
  string_of_list_ascii (a ++ b)
  = string_of_list_ascii a ++ string_of_list_ascii b.
Proof. induction a as [|c a IH]; simpl; [reflexivity|now rewrite IH]. Qed.

Lemma list_ascii_of_string_app (a b : string) :
  list_ascii_of_string (a ++ b)
  = (list_ascii_of_string a ++ list_ascii_of_string b)%list.
Proof. induction a as [|c a IH]; simpl; [reflexivity|now rewrite IH]. Qed.

Lemma all_chars_of_list (p : ascii -> bool) (l : list ascii) :
  all_chars p (string_of_list_ascii l) = forallb p l.
Proof. induction l as [|c l IH]; simpl; [reflexivity|now rewrite IH]. Qed.

Lemma forallb_rev_true {A : Type} (p : A -> bool) (l : list A) :
  forallb p l = true -> forallb p (rev l) = true.
Proof.
  rewrite !forallb_forall. intros H x Hx. apply H. now apply in_rev.
Qed.

(** When the system has a text for the error code, [error_string] gives
    that text back with the carriage returns and line feeds at its end
    taken off, and with nothing else taken off: the text is the result
    followed by carriage returns and line feeds only, and the result
    does not end in one. *)
Theorem error_string_drops_the_line_end (FormatMessageA : Z -> option string)
    (error_code : Z) (buffer : string) :
  FormatMessageA error_code = Some buffer ->
  (exists line_end,
     buffer = error_string FormatMessageA error_code ++ line_end
     /\ all_chars is_cr_or_lf line_end = true)
  /\ forall body c,
       error_string FormatMessageA error_code = body ++ String c "" ->
       is_cr_or_lf c = false.
Proof.
  intros Hfm. unfold error_string. rewrite Hfm.
  destruct (pop_back_newlines_spec (rev (list_ascii_of_string buffer)))
    as (popped & Hr & Hall & Hhd).
  set (kept := pop_back_newlines (rev (list_ascii_of_string buffer))) in *.
  split.
  - exists (string_of_list_ascii (rev popped)). split.
    + rewrite <- string_of_list_ascii_app, <- rev_app_distr, <- Hr, rev_involutive.
      now rewrite string_of_list_ascii_of_string.
    + rewrite all_chars_of_list. now apply forallb_rev_true.
  - intros body c Hb.
    apply (f_equal list_ascii_of_string) in Hb.
    rewrite list_ascii_of_string_of_list_ascii, list_ascii_of_string_app in Hb.
    simpl in Hb. apply (f_equal (@rev ascii)) in Hb.
    rewrite rev_involutive, rev_app_distr in Hb. simpl in Hb.
    rewrite Hb in Hhd. exact Hhd.
Qed.

Lemma error_string_drops_the_line_end_witness :
  (exists line_end,
     "Access is denied." ++ CR ++ LF
     = error_string (fun _ => Some ("Access is denied." ++ CR ++ LF)) 5 ++ line_end
     /\ all_chars is_cr_or_lf line_end = true)
  /\ forall body c,
       error_string (fun _ => Some ("Access is denied." ++ CR ++ LF)) 5
       = body ++ String c "" ->
       is_cr_or_lf c = false.
Proof.
  apply (error_string_drops_the_line_end
           (fun _ => Some ("Access is denied." ++ CR ++ LF)) 5).
  reflexivity.
Defined.

Example error_string_access_denied :
  error_string (fun _ => Some ("Access is denied." ++ CR ++ LF)) 5
  = "Access is denied.".
Proof. reflexivity. Qed.

Example error_string_unknown :
  error_string (fun _ => None) 1460 = "Unknown error (1460)".
Proof. reflexivity. Qed.

(** ** Reading back what [std::format] wrote *)






(** ** The rate of the frames *)

Section Rate.

Variables (w : World) (cfg : Config).
Hypothesis clock_steady : steady w.

Lemma first_send_waits (n0 : Z) (s0 : State) (k : nat) :
  entry n0 s0 ->
  last_send_time s0 = steady_clock w 0 ->
  let s := run w cfg k s0 in
  steady_clock w 0 <= last_send_time s
  /\ (forall now, phase s = Send now -> steady_clock w 0 + period_ns cfg <= now)
  /\ (forall x, nth_error (writes (trace s)) 0 = Some x ->
        steady_clock w 0 + period_ns cfg <= sent_at x).
Proof.
  intros He H0. induction k as [|k (IHl & IHs & IHw)]; simpl.
  - rewrite H0, (entry_phase _ _ He), (entry_writes _ _ He).
    repeat split; [lia|discriminate|discriminate].
  - pose proof (paced_run w cfg clock_steady n0 s0 k He) as [_ Hp].
    set (s := run w cfg k s0) in *.
    destruct (phase s) as [| | |now|code] eqn:Ephase.
    + destruct (deliver w s) eqn:Ed.
      * rewrite step_head_stop by assumption. simpl.
        rewrite writes_app, app_nil_r. repeat split; auto; discriminate.
      * rewrite step_head_go by assumption. simpl.
        repeat split; auto; discriminate.
    + destruct (Z.lt_ge_cases (steady_clock w (instant s) - last_send_time s)
                              (period_ns cfg)) as [Hlt|Hge].
      * rewrite step_wait_yield by assumption. simpl.
        rewrite writes_app, app_nil_r. repeat split; auto; discriminate.
      * rewrite step_wait_release by assumption. simpl.
        repeat split; auto; discriminate.
    + rewrite step_take_now by assumption. simpl.
      destruct Hp as [_ Hrel].
      pose proof (clock_steady 0%nat (instant s) ltac:(lia)).
      pose proof (clock_steady (pred (instant s)) (instant s) ltac:(lia)).
      repeat split; auto. intros now [= <-]. lia.
    + specialize (IHs now eq_refl).
      assert (forall ok more x,
                writes more = [] ->
                nth_error (writes (trace s ++ Write now (n s) (format_frame (n s)) ok
                                           :: more)) 0 = Some x ->
                steady_clock w 0 + period_ns cfg <= sent_at x) as Hnew.
      { intros ok more x Hmore. rewrite writes_app. simpl. rewrite Hmore.
        destruct (writes (trace s)) as [|y ws] eqn:Ew; simpl.
        - now intros [= <-].
        - intros [= <-]. now apply IHw. }
      destruct (write_ok w (attempts s)) eqn:Eok.
      * rewrite (step_send_ok w cfg s now) by assumption. simpl.
        repeat split; auto; [discriminate|].
        intros x. apply Hnew. apply writes_status_print.
      * destruct (step_send_fail w cfg s now Ephase Eok) as [e ->]. simpl.
        repeat split; auto; [discriminate|].
        intros x. now apply Hnew.
    + unfold step. rewrite Ephase. repeat split; auto.
      now rewrite Ephase.
Qed.

End Rate.

(** The frames never come faster than asked for: with a steady clock the
    frame number [i] (from 0) is stamped no earlier than [i + 1] periods
    after the clock reading taken before the loop. *)
Theorem frames_never_exceed_the_rate (w : World) (argv : list string)
    (cfg : Config) (s0 : State) (k i : nat) (x : Sent) :
  main w argv = Enter cfg s0 ->
  steady w ->
  nth_error (writes (trace (run w cfg k s0))) i = Some x ->
  steady_clock w 0 + Z.of_nat (S i) * (sleep_time_ms cfg * ns_per_ms)
  <= sent_at x.
Proof.
  intros Hm Hsteady.
  destruct (main_enter _ _ _ _ Hm) as (n0 & f0 & _ & _ & _ & _ & _ & He & _ & _ & H0).
  pose proof (first_send_waits w cfg Hsteady n0 s0 k He H0) as (_ & _ & Hfirst).
  pose proof (paced_run w cfg Hsteady n0 s0 k He) as [Hgaps _].
  fold (period_ns cfg). revert x. induction i as [|i IH]; intros x Hx.
  - specialize (Hfirst x Hx). lia.
  - destruct (nth_error (writes (trace (run w cfg k s0))) i) as [y|] eqn:Ey.
    + specialize (IH y eq_refl). specialize (Hgaps i y x Ey Hx). lia.
    + apply nth_error_None in Ey.
      assert (nth_error (writes (trace (run w cfg k s0))) (S i) <> None) as Hn
        by (rewrite Hx; discriminate).
      apply nth_error_Some in Hn. lia.
Qed.

Lemma frames_never_exceed_the_rate_witness :
  0 + Z.of_nat 3 * (10 * ns_per_ms) <= 33000000.
Proof.
  apply (frames_never_exceed_the_rate calm com7_20_100
           {| comport := "COM7"; f := 100; sleep_time_ms := 10 |}
           {| phase := LoopHead; gStopRequested := false; n := 20;
              messages_sent := 0; last_send_time := 0; last_print_time := 0;
              instant := 1; attempts := 0;
              trace := [Print cout ("Starting excserial program..." ++ LF);
                        Open "COM7";
                        Print cout ("Serial port successfully configured!" ++ LF);
                        Print cout ("Sending [+/-] 20 to COM7 with 100Hz (10 ms)..."
                                    ++ LF)] |}
           40 2
           {| sent_at := 33000000; value := 20; bytes := "#20,20,20,20;";
              succeeded := true |}).
  - reflexivity.
  - intros i j H. simpl. unfold ns_per_ms. lia.
  - vm_compute. reflexivity.
Defined.

(** ** The status line *)

Lemma status_lines_app (a b : list Event) :
  status_lines (a ++ b) = (status_lines a + status_lines b)%nat.
Proof.
  induction a as [|e a IH]; [reflexivity|].
  destruct e as [[] text| | | |]; simpl; rewrite ?IH; try reflexivity.
  now destruct (prefix status_prefix text).
Qed.

Lemma prefix_empty (x : string) : prefix "" x = true.
Proof. now destruct x. Qed.

Lemma status_lines_status_print (now : Z) (s : State) (c : Z) :
  status_lines (status_print now s c) = if status_due now s then 1%nat else 0%nat.
Proof.
  unfold status_print. destruct (status_due now s); [|reflexivity].
  simpl. now rewrite prefix_empty.
Qed.

Lemma main_no_status_line (w : World) (argv : list string) (cfg : Config)
    (s0 : State) :
  main w argv = Enter cfg s0 ->
  status_lines (trace s0) = 0%nat /\ last_print_time s0 = steady_clock w 0.
Proof.
  unfold main. destruct (_ <? 4)%Z; [discriminate|].
  destruct (extract_int (nth 2 argv "")); [|discriminate].
  destruct (extract_int (nth 3 argv "")); [|discriminate].
  destruct (_ >? 1000)%Z; [discriminate|].
  destruct (int_div 1000 _); [|discriminate].
  destruct (os_error w CreateFile); [discriminate|].
  destruct (os_error w SetConsoleCtrlHandler); [discriminate|].
  destruct (os_error w SetCommTimeouts); [discriminate|].
  intros [= _ <-]. cbn [trace last_print_time]. split; [|reflexivity].
  destruct (os_error w GetCommState); reflexivity.
Qed.

Section Status.

Variables (w : World) (cfg : Config).
Hypothesis clock_steady : steady w.

Lemma status_invariant (s0 : State) (k : nat) :
  phase s0 = LoopHead ->
  status_lines (trace s0) = 0%nat ->
  last_print_time s0 = steady_clock w 0 ->
  (1 <= instant s0)%nat ->
  let s := run w cfg k s0 in
  Z.of_nat (status_lines (trace s)) * 2000000001
  <= last_print_time s - steady_clock w 0
  /\ last_print_time s <= steady_clock w (pred (instant s))
  /\ (forall now, phase s = Send now -> now <= steady_clock w (pred (instant s)))
  /\ (1 <= instant s)%nat.
Proof.
  intros Hp0 Hl0 Ht0 Hi0. induction k as [|k (IHl & IHt & IHs & IHi)]; simpl.
  - rewrite Hl0, Ht0, Hp0. repeat split; try lia; try discriminate.
    apply clock_steady. lia.
  - set (s := run w cfg k s0) in *.
    pose proof (clock_steady (pred (instant s)) (instant s) ltac:(lia)) as Hc.
    destruct (phase s) as [| | |now|code] eqn:Ephase.
    + destruct (deliver w s) eqn:Ed.
      * rewrite step_head_stop by assumption. simpl.
        rewrite status_lines_app. simpl. rewrite Nat.add_0_r.
        repeat split; try lia; discriminate.
      * rewrite step_head_go by assumption. simpl.
        repeat split; try lia; discriminate.
    + destruct (Z.lt_ge_cases (steady_clock w (instant s) - last_send_time s)
                              (period_ns cfg)) as [Hlt|Hge].
      * rewrite step_wait_yield by assumption. simpl.
        rewrite status_lines_app. simpl. rewrite Nat.add_0_r.
        repeat split; try lia; discriminate.
      * rewrite step_wait_release by assumption. simpl.
        repeat split; try lia; discriminate.
    + rewrite step_take_now by assumption. simpl.
      repeat split; try lia. intros now [= <-]. lia.
    + specialize (IHs now eq_refl).
      destruct (write_ok w (attempts s)) eqn:Eok.
      * rewrite (step_send_ok w cfg s now) by assumption. simpl.
        rewrite status_lines_app. simpl. rewrite status_lines_status_print.
        unfold status_due.
        destruct (Z.gtb_spec (now - last_print_time s) status_print_time);
          unfold status_print_time in *;
          repeat split; try lia; try discriminate.
      * destruct (step_send_fail w cfg s now Ephase Eok) as [e ->]. simpl.
        rewrite status_lines_app. simpl. rewrite Nat.add_0_r.
        repeat split; try lia; discriminate.
    + unfold step. rewrite Ephase. repeat split; try lia.
      now rewrite Ephase.
Qed.

End Status.

(** The status line is held back: with a steady clock, when the line
    [Messages sent: ...] has been printed [p] times, more than [p] times
    two seconds have passed on the clock since the reading taken before
    the loop. *)
Theorem status_lines_are_two_seconds_apart (w : World) (argv : list string)
    (cfg : Config) (s0 : State) (k : nat) :
  main w argv = Enter cfg s0 ->
  steady w ->
  Z.of_nat (status_lines (trace (run w cfg k s0))) * (status_print_time + 1)
  <= steady_clock w (pred (instant (run w cfg k s0))) - steady_clock w 0.
Proof.
  intros Hm Hsteady.
  destruct (main_no_status_line w argv cfg s0 Hm) as [Hl Ht].
  pose proof (main_handle w argv) as H. rewrite Hm in H.
  destruct H as (_ & _ & Hp & _).
  destruct (main_enter _ _ _ _ Hm) as (_ & _ & _ & _ & _ & _ & _ & _ & _ & Hi & _).
  destruct (status_invariant w cfg Hsteady s0 k Hp Hl Ht ltac:(lia))
    as (H1 & H2 & _).
  unfold status_print_time. lia.
Qed.

Lemma status_lines_are_two_seconds_apart_witness :
  exists cfg s0,
    main calm com7_20_100 = Enter cfg s0
    /\ Z.of_nat (status_lines (trace (run calm cfg 40 s0))) * (status_print_time + 1)
       <= steady_clock calm (pred (instant (run calm cfg 40 s0)))
          - steady_clock calm 0.
Proof.
  let r := eval vm_compute in (main calm com7_20_100) in
  match r with
  | Enter ?c ?s => exists c, s
  end.
  split; [vm_compute; reflexivity|].
  apply (status_lines_are_two_seconds_apart calm com7_20_100).
  - vm_compute. reflexivity.
  - intros i j H. simpl. unfold ns_per_ms. lia.
Defined.

(** ** Progress *)

Lemma deliver_undisturbed (w : World) (s : State) :
  undisturbed w -> gStopRequested s = false -> deliver w s = false.
Proof.
  intros Hq Hs. unfold deliver. rewrite Hs.
  destruct (ctrl_event w (instant s)) as [ty|] eqn:Ee; [|reflexivity].
  destruct (fst (CtrlHandler ty false)) eqn:Eh; [|reflexivity].
  apply CtrlHandler_handled in Eh. destruct Eh as [|Eh]; [discriminate|].
  destruct (Hq _ _ Ee Eh).
Qed.

(** The wait comes to its end as soon as the clock is past the period,
    with the flag as it was when control events leave it alone. *)
Lemma wait_is_over (w : World) (cfg : Config) (b : bool) :
  (forall s', gStopRequested s' = b -> deliver w s' = b) ->
  forall (d : nat) (s : State),
    phase s = BusyWait -> gStopRequested s = b ->
    period_ns cfg <= steady_clock w (instant s + d) - last_send_time s ->
    exists j, phase (run w cfg (S j) s) = TakeNow
              /\ gStopRequested (run w cfg (S j) s) = b
              /\ attempts (run w cfg (S j) s) = attempts s.
Proof.
  intros Hdel. induction d as [|d IH]; intros s Hp Hs Hd.
  - exists 0%nat. rewrite Nat.add_0_r in Hd. simpl.
    rewrite step_wait_release by assumption. simpl. auto.
  - destruct (Z.lt_ge_cases (steady_clock w (instant s) - last_send_time s)
                            (period_ns cfg)) as [Hlt|Hge].
    + destruct (IH (step w cfg s)) as (j & Hj).
      * now rewrite step_wait_yield.
      * rewrite step_wait_yield by assumption. simpl. auto.
      * rewrite step_wait_yield by assumption. cbn [instant last_send_time].
        now replace (S (instant s) + d)%nat with (instant s + S d)%nat by lia.
      * exists (S j). rewrite (run_step w cfg (S j)).
        replace (attempts s) with (attempts (step w cfg s))
          by now rewrite step_wait_yield.
        exact Hj.
    + exists 0%nat. simpl. rewrite step_wait_release by assumption. simpl. auto.
Qed.

Section Progress.

Variables (w : World) (cfg : Config).
Hypothesis clock_advances : advancing w.

Lemma cycle_completes (s : State) :
  undisturbed w ->
  (forall a, write_ok w a = true) ->
  phase s = LoopHead -> gStopRequested s = false ->
  exists k, phase (run w cfg k s) = LoopHead
            /\ gStopRequested (run w cfg k s) = false
            /\ attempts (run w cfg k s) = S (attempts s).
Proof.
  intros Hq Hok Hp Hs.
  pose proof (step_head_go w cfg s Hp (deliver_undisturbed w s Hq Hs)) as E1.
  destruct (clock_advances (S (instant s)) (last_send_time s + period_ns cfg))
    as [d Hd].
  destruct (wait_is_over w cfg false
              (fun s' => deliver_undisturbed w s' Hq) d (step w cfg s))
    as (j & Hp2 & Hs2 & Ha2).
  { now rewrite E1. }
  { now rewrite E1. }
  { rewrite E1. cbn [instant last_send_time]. lia. }
  rewrite E1 in Ha2 at 2. cbn [attempts] in Ha2.
  exists (2 + (S j + 1))%nat. rewrite !run_add.
  change (run w cfg 1 s) with (step w cfg s).
  set (s2 := run w cfg (S j) (step w cfg s)) in *.
  change (run w cfg 2 s2) with (step w cfg (step w cfg s2)).
  pose proof (step_take_now w cfg s2 Hp2) as E3.
  assert (phase (step w cfg s2) = Send (steady_clock w (instant s2))
          /\ gStopRequested (step w cfg s2) = false
          /\ attempts (step w cfg s2) = attempts s) as (Hp3 & Hs3 & Ha3).
  { rewrite E3. cbn [phase gStopRequested attempts].
    rewrite deliver_undisturbed by assumption. auto. }
  rewrite (step_send_ok w cfg _ _ Hp3 (Hok _)).
  cbn [phase gStopRequested attempts].
  rewrite deliver_undisturbed, Ha3 by assumption. auto.
Qed.

Lemma stopped_run_exits (s : State) :
  gStopRequested s = true ->
  exists k code, phase (run w cfg k s) = Exited code.
Proof.
  assert (forall s, gStopRequested s = true -> phase s = LoopHead ->
                    exists k code, phase (run w cfg k s) = Exited code) as Hhead.
  { intros s1 Hs Hp. exists 1%nat, EXIT_SUCCESS. simpl.
    now rewrite (step_head_stop w cfg s1 Hp (deliver_sticky w s1 Hs)). }
  assert (forall s now, gStopRequested s = true -> phase s = Send now ->
                        exists k code, phase (run w cfg k s) = Exited code) as Hsend.
  { intros s1 now Hs Hp. destruct (write_ok w (attempts s1)) eqn:Eok.
    - destruct (Hhead (step w cfg s1)) as (k & code & Hk).
      + rewrite (step_send_ok w cfg s1 now Hp Eok). simpl.
        now apply deliver_sticky.
      + now rewrite (step_send_ok w cfg s1 now Hp Eok).
      + exists (S k), code. now rewrite run_step.
    - destruct (step_send_fail w cfg s1 now Hp Eok) as [e E].
      exists 1%nat, EXIT_FAILURE. simpl. now rewrite E. }
  assert (forall s, gStopRequested s = true -> phase s = TakeNow ->
                    exists k code, phase (run w cfg k s) = Exited code) as Htake.
  { intros s1 Hs Hp.
    destruct (Hsend (step w cfg s1) (steady_clock w (instant s1)))
      as (k & code & Hk).
    - rewrite step_take_now by assumption. simpl. now apply deliver_sticky.
    - now rewrite step_take_now.
    - exists (S k), code. now rewrite run_step. }
  intros Hs. destruct (phase s) as [| | |now|code] eqn:Ep; eauto.
  - destruct (clock_advances (instant s) (last_send_time s + period_ns cfg))
      as [d Hd].
    destruct (wait_is_over w cfg true (deliver_sticky w) d s Ep Hs ltac:(lia))
      as (j & Hp2 & Hs2 & _).
    destruct (Htake _ Hs2 Hp2) as (k & code & Hk).
    exists (k + S j)%nat, code. now rewrite run_add.
  - exists 0%nat, code. exact Ep.
Qed.

End Progress.

(** As long as no control event stops it and no write fails, and the
    clock keeps advancing, the program goes on sending: for every number
    there is an instant by which that many frames have been written, and
    the loop is still running. *)
Theorem undisturbed_loop_keeps_sending (w : World) (argv : list string)
    (cfg : Config) (s0 : State) (frames : nat) :
  main w argv = Enter cfg s0 ->
  undisturbed w ->
  advancing w ->
  (forall a, write_ok w a = true) ->
  exists k,
    List.length (writes (trace (run w cfg k s0))) = frames
    /\ successes (trace (run w cfg k s0)) = frames
    /\ exit_code (run w cfg k s0) = None.
Proof.
  intros Hm Hq Hadv Hok.
  destruct (main_enter _ _ _ _ Hm) as (n0 & f0 & _ & _ & _ & _ & _ & He & _).
  assert (exists k, phase (run w cfg k s0) = LoopHead
                    /\ gStopRequested (run w cfg k s0) = false
                    /\ attempts (run w cfg k s0) = frames) as (k & Hp & _ & Ha).
  { induction frames as [|m (k & Hp & Hs & Ha)].
    - exists 0%nat. simpl. repeat split; apply He.
    - destruct (cycle_completes w cfg Hadv _ Hq Hok Hp Hs) as (j & Hp' & Hs' & Ha').
      exists (j + k)%nat. rewrite run_add, Ha' , Ha. auto. }
  exists k. pose proof (invariant_run w cfg n0 s0 k He) as Hinv.
  pose proof (inv_phase _ _ _ Hinv) as Hph. rewrite Hp in Hph.
  destruct Hph as (_ & Hsucc & _).
  rewrite (inv_attempts _ _ _ Hinv), Hsucc, Ha. unfold exit_code. now rewrite Hp.
Qed.

Lemma undisturbed_loop_keeps_sending_witness :
  exists cfg s0,
    main calm com7_20_100 = Enter cfg s0
    /\ exists k,
         List.length (writes (trace (run calm cfg k s0))) = 7%nat
         /\ successes (trace (run calm cfg k s0)) = 7%nat
         /\ exit_code (run calm cfg k s0) = None.
Proof.
  let r := eval vm_compute in (main calm com7_20_100) in
  match r with
  | Enter ?c ?s => exists c, s
  end.
  split; [vm_compute; reflexivity|].
  apply (undisturbed_loop_keeps_sending calm com7_20_100).
  - vm_compute. reflexivity.
  - intros i ty H. discriminate.
  - intros i t. exists (Z.to_nat t). simpl. unfold ns_per_ms. lia.
  - reflexivity.
Defined.

(** A stop request always ends the program: when a control event that
    [CtrlHandler] handles arrives at an instant of the loop and the
    clock keeps advancing, the program comes to its end. *)
Theorem stop_request_ends_the_program (w : World) (argv : list string)
    (cfg : Config) (s0 : State) (i : nat) (ty : Z) :
  main w argv = Enter cfg s0 ->
  advancing w ->
  (1 <= i)%nat ->
  ctrl_event w i = Some ty ->
  In ty handled ->
  exists k code, phase (run w cfg k s0) = Exited code.
Proof.
  intros Hm Hadv Hi He Hh.
  destruct (main_enter _ _ _ _ Hm) as (_ & _ & _ & _ & _ & _ & _ & _ & _ & Hi0 & _).
  assert (forall k, (exists code, phase (run w cfg k s0) = Exited code)
                    \/ instant (run w cfg k s0) = S k) as Hinst.
  { induction k as [|k [[code IH]|IH]].
    - now right.
    - left. exists code. simpl. unfold step. now rewrite IH.
    - simpl. rewrite step_instant.
      destruct (phase (run w cfg k s0)) eqn:Ep; try (right; lia).
      left. exists code. unfold step. now rewrite Ep. }
  destruct (phase (run w cfg (i - 1) s0)) as [| | |now|code] eqn:Ep;
    [| | | |now exists (i - 1)%nat, code];
    (destruct (Hinst (i - 1)%nat) as [[code Hx]|Hx];
     [rewrite Ep in Hx; discriminate|]);
    replace (S (i - 1)) with i in Hx by lia;
    (destruct (stopped_run_exits w cfg Hadv (step w cfg (run w cfg (i - 1) s0)))
       as (k & code & Hk);
     [rewrite step_stop, Ep; unfold deliver; rewrite Hx, He;
      apply CtrlHandler_handled; now right
     |exists (k + S (i - 1))%nat, code; rewrite run_add; exact Hk]).
Qed.

Lemma stop_request_ends_the_program_witness :
  exists cfg s0,
    main (ctrl_c_at 3) com7_20_100 = Enter cfg s0
    /\ exists k code, phase (run (ctrl_c_at 3) cfg k s0) = Exited code.
Proof.
  let r := eval vm_compute in (main (ctrl_c_at 3) com7_20_100) in
  match r with
  | Enter ?c ?s => exists c, s
  end.
  split; [vm_compute; reflexivity|].
  apply (stop_request_ends_the_program (ctrl_c_at 3) com7_20_100 _ _ 3 CTRL_C_EVENT).
  - vm_compute. reflexivity.
  - intros i t. exists (Z.to_nat t). simpl. unfold ns_per_ms. lia.
  - lia.
  - reflexivity.
  - simpl. auto.
Defined.

(** ** A frame and its value *)

Lemma field_ends_at_comma (a b x y : string) :
  all_chars (fun c => negb (Nat.eqb (nat_of_ascii c) 44)) a = true ->
  all_chars (fun c => negb (Nat.eqb (nat_of_ascii c) 44)) b = true ->
  a ++ String ","%char x = b ++ String ","%char y ->
  a = b.
Proof.
  revert b. induction a as [|c a IH]; intros [|c' b] Ha Hb H; simpl in *.
  - reflexivity.
  - injection H as <- _. discriminate.
  - injection H as -> _. discriminate.
  - injection H as <- H. apply andb_prop in Ha, Hb.
    f_equal. apply IH; tauto.
Qed.

Lemma to_chars_no_comma (v : Z) :
  all_chars (fun c => negb (Nat.eqb (nat_of_ascii c) 44)) (to_chars v) = true.
Proof.
  assert (forall d, all_chars (fun c => negb (Nat.eqb (nat_of_ascii c) 44))
                      (NilEmpty.string_of_uint d) = true) as Hd
    by (induction d; simpl; auto).
  unfold to_chars, NilZero.string_of_int, NilZero.string_of_uint.
  destruct (Z.to_int v) as [d|d]; destruct d; try reflexivity;
    apply (Hd (_ _)) || (simpl; apply (Hd _)).
Qed.

(** A frame tells its value: two different values never have the same
    frame, so the receiver can tell every payload from every other, a
    magnitude from its negation among them. *)
Theorem frame_determines_value (v v' : Z) :
  v <> v' -> format_frame v <> format_frame v'.
Proof.
  unfold format_frame. intros Hne H. apply Hne. simpl in H. injection H as H.
  apply field_ends_at_comma in H; try apply to_chars_no_comma.
  pose proof (to_chars_decimal v) as E. rewrite H, to_chars_decimal in E.
  now injection E.
Qed.

Lemma frame_determines_value_witness : format_frame 20 <> format_frame (-20).
Proof. apply frame_determines_value. lia. Defined.

(** ** A negative frequency *)

Lemma yields_app (a b : list Event) : yields (a ++ b) = (yields a + yields b)%nat.
Proof.
  induction a as [|e a IH]; [reflexivity|].
  destruct e; simpl; rewrite IH; reflexivity.
Qed.

Lemma yields_status_print (now : Z) (s : State) (c : Z) :
  yields (status_print now s c) = 0%nat.
Proof. unfold status_print. destruct (status_due now s); reflexivity. Qed.

Lemma main_no_yield (w : World) (argv : list string) (cfg : Config) (s0 : State) :
  main w argv = Enter cfg s0 -> yields (trace s0) = 0%nat.
Proof.
  unfold main. destruct (_ <? 4)%Z; [discriminate|].
  destruct (extract_int (nth 2 argv "")); [|discriminate].
  destruct (extract_int (nth 3 argv "")); [|discriminate].
  destruct (_ >? 1000)%Z; [discriminate|].
  destruct (int_div 1000 _); [|discriminate].
  destruct (os_error w CreateFile); [discriminate|].
  destruct (os_error w SetConsoleCtrlHandler); [discriminate|].
  destruct (os_error w SetCommTimeouts); [discriminate|].
  intros [= _ <-]. cbn [trace].
  destruct (os_error w GetCommState); reflexivity.
Qed.

(** A negative frequency is not turned down, and the loop then never
    waits: the period is zero or negative, so with a steady clock
    [Sleep(0)] is never called and the frames go out one after the other
    as fast as the loop turns. *)
Theorem negative_frequency_never_waits (w : World) (argv : list string)
    (cfg : Config) (s0 : State) (fz : Z) (k : nat) :
  main w argv = Enter cfg s0 ->
  extract_int (nth 3 argv "") = Some fz ->
  fz < 0 ->
  steady w ->
  sleep_time_ms cfg <= 0
  /\ yields (trace (run w cfg k s0)) = 0%nat.
Proof.
  intros Hm Ef Hneg Hsteady.
  pose proof (main_no_yield w argv cfg s0 Hm) as Hy0.
  destruct (main_enter _ _ _ _ Hm)
    as (n0 & f0 & _ & Ef' & _ & _ & Hper & He & _ & Hi0 & Hl0).
  rewrite Ef in Ef'. injection Ef' as <-.
  assert (sleep_time_ms cfg <= 0) as Hle.
  { rewrite Hper, <- (Z.opp_involutive fz), Z.quot_opp_r by lia.
    pose proof (Z.quot_pos 1000 (- fz)). lia. }
  split; [exact Hle|].
  assert (yields (trace (run w cfg k s0)) = 0%nat
          /\ last_send_time (run w cfg k s0)
             <= steady_clock w (pred (instant (run w cfg k s0)))
          /\ (1 <= instant (run w cfg k s0))%nat) as (H & _).
  { induction k as [|k (IHy & IHl & IHi)]; simpl.
    - rewrite Hy0, Hl0, Hi0. simpl. repeat split; lia.
    - set (s := run w cfg k s0) in *.
      pose proof (Hsteady (pred (instant s)) (instant s) ltac:(lia)) as Hc.
      destruct (phase s) as [| | |now|code] eqn:Ephase.
      + destruct (deliver w s) eqn:Ed.
        * rewrite step_head_stop by assumption. simpl.
          rewrite yields_app. simpl. repeat split; lia.
        * rewrite step_head_go by assumption. simpl. repeat split; lia.
      + rewrite step_wait_release; [simpl; repeat split; lia|assumption|].
        unfold period_ns, ns_per_ms. nia.
      + rewrite step_take_now by assumption. simpl. repeat split; lia.
      + destruct (write_ok w (attempts s)) eqn:Eok.
        * rewrite (step_send_ok w cfg s now) by assumption. simpl.
          rewrite yields_app. simpl. rewrite yields_status_print.
          repeat split; lia.
        * destruct (step_send_fail w cfg s now Ephase Eok) as [e ->]. simpl.
          rewrite yields_app. simpl. repeat split; lia.
      + unfold step. rewrite Ephase. repeat split; lia. }
  exact H.
Qed.

Lemma negative_frequency_never_waits_witness :
  exists cfg s0,
    main calm ["excserial"; "COM7"; "20"; "-5"] = Enter cfg s0
    /\ sleep_time_ms cfg <= 0
    /\ yields (trace (run calm cfg 40 s0)) = 0%nat.
Proof.
  let r := eval vm_compute in (main calm ["excserial"; "COM7"; "20"; "-5"]) in
  match r with
  | Enter ?c ?s => exists c, s
  end.
  split; [vm_compute; reflexivity|].
  apply (negative_frequency_never_waits calm ["excserial"; "COM7"; "20"; "-5"]
           _ _ (-5) 40).
  - vm_compute. reflexivity.
  - reflexivity.
  - lia.
  - intros i j H. simpl. unfold ns_per_ms. lia.
Defined.
